(** * miniwdl: Cromwell-style JSON marshalling of inputs and outputs

  A shallow embedding of [WDL.values_from_json] and [WDL.values_to_json]
  (WDL/__init__.py), of the [WDL.Env.Bindings] interface they rely on, and
  of the part of the workflow runner that the runner tests
  (tests/test_7runner.py) exercise. *)

From Stdlib Require Import String Ascii List Bool Arith ZArith Lia Permutation.
Import ListNotations.
Open Scope list_scope.
Open Scope string_scope.

Set Implicit Arguments.

(** ** Python [str] operations used by the marshalling code

    A [str] is represented by its UTF-8 bytes. The operations below test and
    cut at prefixes and at the ASCII characters '.' and '#', which gives the
    same results on bytes as on code points. *)

Module Str.

(** [s.startswith(p)] *)
Definition startswith (s p : string) : bool := String.prefix p s.

(** [s.endswith(p)] *)
Fixpoint endswith (s p : string) : bool :=
  (s =? p) ||
  match s with
  | EmptyString => false
  | String _ s' => endswith s' p
  end.

(** [s[n:]] *)
Fixpoint slice_from (n : nat) (s : string) : string :=
  match n, s with
  | O, _ => s
  | S _, EmptyString => EmptyString
  | S n', String _ s' => slice_from n' s'
  end.

(** [s.split(sep)] for a one-character separator: never returns the empty
    list, and keeps empty fields. *)
Fixpoint split (sep : ascii) (s : string) : list string :=
  match s with
  | EmptyString => [EmptyString]
  | String c s' =>
      if Ascii.eqb c sep then EmptyString :: split sep s'
      else match split sep s' with
           | h :: t => String c h :: t
           | [] => [String c EmptyString]
           end
  end.

(** [sep.join(parts)] *)
Definition join (sep : string) (parts : list string) : string :=
  String.concat sep parts.

(** Python truthiness of a string. *)
Definition nonempty (s : string) : bool :=
  match s with EmptyString => false | _ => true end.


(** The character does not occur in the string. *)
Fixpoint free_of (c : ascii) (s : string) : bool :=
  match s with
  | EmptyString => true
  | String c' s' => negb (Ascii.eqb c' c) && free_of c s'
  end.

End Str.

(** ** Exceptions and results *)

Inductive exn : Type :=
| InputError (msg : string)      (* WDL.Error.InputError *)
| KeyError (key : string)        (* the built-in KeyError *)
| OtherError (msg : string).     (* anything else a callee may raise *)

Inductive result (A : Type) : Type :=
| Ok (a : A)
| Raise (e : exn).

Arguments Ok {A} a.
Arguments Raise {A} e.

Definition rbind {A B : Type} (r : result A) (k : A -> result B) : result B :=
match r with
| Ok a => k a
| Raise e => Raise e
end.

Notation "x <- r ;; k" := (rbind r (fun x => k))
  (at level 61, r at next level, right associativity).

(** ** Python [dict] with [str] keys: insertion-ordered association list *)

Module Dict.
Section Dict.
Variable A : Type.

Definition t := list (string * A).

Definition keys (d : t) : list string := map fst d.

(** [d[k]], [None] standing for KeyError *)
Fixpoint get (d : t) (k : string) : option A :=
  match d with
  | [] => None
  | (k', v) :: d' => if k' =? k then Some v else get d' k
  end.

(** [d[k] = v]: overwrite in place, or append a new key at the end *)
Fixpoint set (d : t) (k : string) (v : A) : t :=
  match d with
  | [] => [(k, v)]
  | (k', v') :: d' =>
      if k' =? k then (k', v) :: d' else (k', v') :: set d' k v
  end.

(** A list is a dict when no key repeats. *)
Definition wf (d : t) : Prop := NoDup (keys d).

End Dict.
End Dict.

(** ** Env.Bindings *)

Module Env.

(** Modelled from the spec: the mask of names already yielded, which the
    iteration over [WDL.Env.Bindings] needs to yield a name once; [mem n l] is
    [n in l]. *)
Definition mem (n : string) (l : list string) : bool :=
  existsb (String.eqb n) l.

Section Bindings.
Variable V : Type.

(** Modelled from the spec: [WDL.Env.Bindings], whose module (WDL/Env.py) is
    not among the sources. "Ordered, immutable mapping from dotted string
    name to a value"; [bind] "returns a new mapping with one more entry; last
    bind of a duplicate name wins for lookup but prior entries are
    retained". The head of the list is the most recent binding. *)
Definition Bindings := list (string * V).

(** Modelled from the spec: [Env.Bindings()], the mapping without entries. *)
Definition empty : Bindings := [].

(** Modelled from the spec: [env.bind(name, value)], "a new mapping with one
    more entry". *)
Definition bind (name : string) (value : V) (env : Bindings) : Bindings :=
  (name, value) :: env.

(** Modelled from the spec: lookup, [env[name]], [None] standing for
    KeyError; "last bind of a duplicate name wins". *)
Fixpoint resolve (env : Bindings) (name : string) : option V :=
  match env with
  | [] => None
  | (n, v) :: env' => if n =? name then Some v else resolve env' name
  end.

(** Modelled from the spec: the "membership test", [name in env]. *)
Definition has_binding (env : Bindings) (name : string) : bool :=
  match resolve env name with Some _ => true | None => false end.

(** Modelled from the spec: iteration, [for item in env], over an "ordered"
    mapping: the most recent binding first, a name being yielded once, with
    the binding that lookup finds; [seen] is the mask of the names yielded so
    far. *)
Fixpoint items_masked (seen : list string) (env : Bindings)
  : list (string * V) :=
  match env with
  | [] => []
  | (n, v) :: env' =>
      if mem n seen then items_masked seen env'
      else (n, v) :: items_masked (n :: seen) env'
  end.

(** Modelled from the spec: the items that [for item in env] yields. *)
Definition items (env : Bindings) : list (string * V) :=
  items_masked [] env.

(** Modelled from the spec: the names that [for item in env] yields,
    [item.name]. *)
Definition names (env : Bindings) : list string := map fst (items env).

(** Modelled from the spec: the truth value of a mapping, [if env:], true
    when it has an entry. *)
Definition nonempty (env : Bindings) : bool :=
  match env with [] => false | _ => true end.

End Bindings.

(** Modelled from the spec: [lhs.subtract(rhs)], "entries in A whose names
    are absent from B". *)
Definition subtract {V W : Type} (lhs : Bindings V) (rhs : Bindings W)
  : Bindings V :=
  filter (fun b => negb (has_binding rhs (fst b))) lhs.

End Env.

(** ** WDL.values_to_json and WDL.values_from_json *)

Section Marshal.

(** [WDL.Type.Base], [WDL.Tree.Decl], [WDL.Value.Base] and JSON values
    ([Any]) are defined outside WDL/__init__.py; the marshalling code only
    uses the operations below. [Value.from_json] is a call that may raise. *)
Variables Ty Decl Value Any : Type.
Variable decl_type : Decl -> Ty.                  (* [decl.type] *)
Variable type_str : Ty -> string.                 (* [str(ty)] *)
Variable any_of_str : string -> Any.              (* a [str] as a JSON value *)
Variable value_json : Value -> Any.               (* [v.json] *)
Variable from_json : Ty -> Any -> result Value.   (* [Value.from_json] *)

(** [Union[Tree.Decl, Type.Base]] *)
Inductive declared : Type :=
| IsDecl (d : Decl)
| IsType (ty : Ty).

(** [if isinstance(ty, Tree.Decl): ty = ty.type] *)
Definition declared_type (d : declared) : Ty :=
  match d with
  | IsDecl d => decl_type d
  | IsType ty => ty
  end.

(** The right-hand side [j] that [values_to_json] computes for an item whose
    value is a [Value.Base]. *)
Definition json_of_value (v : Value) : Any := value_json v.

(** The right-hand side [j] for an item whose value is a [Tree.Decl] or a
    [Type.Base]: the type string. *)
Definition json_of_declared (d : declared) : Any :=
  match d with
  | IsDecl d => any_of_str (type_str (decl_type d))
  | IsType ty => any_of_str (type_str ty)
  end.

(** [if namespace and not namespace.endswith("."): namespace += "."] *)
Definition normalize_namespace (namespace : string) : string :=
  if Str.nonempty namespace && negb (Str.endswith namespace ".")
  then namespace ++ "."
  else namespace.

(** The body of the loop of [values_to_json]:
    [ans[namespace + item.name] = j]; [json_of] is the [isinstance] dispatch
    on the item's value. *)
Definition put_item {V : Type} (json_of : V -> Any) (namespace : string)
    (ans : Dict.t Any) (item : string * V) : Dict.t Any :=
  Dict.set ans (namespace ++ fst item) (json_of (snd item)).

(** [values_to_json(values_env, namespace)] *)
Definition values_to_json {V : Type} (json_of : V -> Any)
    (values_env : Env.Bindings V) (namespace : string) : Dict.t Any :=
  let namespace := normalize_namespace namespace in
  fold_left (put_item json_of namespace) (Env.items values_env) [].

(** [key.startswith("#")]: the key is a "comment". *)
Definition is_comment (key : string) : bool := Str.startswith key "#".

(** Lines 179-181: [key2] after the optional removal of the namespace. *)
Definition strip_namespace (namespace key : string) : string :=
  if Str.nonempty namespace && Str.startswith key namespace
  then Str.slice_from (String.length namespace) key
  else key.

(** Lines 182-186: [key2] after the attempt to simplify
    [<call>.<subworkflow>.<input>]. *)
Definition simplify_key (available : Env.Bindings declared) (key2 : string)
  : string :=
  if negb (Env.has_binding available key2) then
    match Str.split "." key2 with
    | [p0; p1; p2] =>
        if Str.nonempty p0 && Str.nonempty p1 && Str.nonempty p2
        then Str.join "." [p0; p2]
        else key2
    | _ => key2
    end
  else key2.

(** Lines 179-186: the name [key2] under which the key is looked up in
    [available], and bound. *)
Definition lookup_name (available : Env.Bindings declared)
    (namespace key : string) : string :=
  simplify_key available (strip_namespace namespace key).

(** The key names an available declaration, once stripped and simplified:
    the lookup [available[key2]] does not raise KeyError. *)
Definition known (available : Env.Bindings declared)
    (namespace key : string) : bool :=
  Env.has_binding available (lookup_name available namespace key).

(** The body of the [for key in values_json] loop; [namespace] is already
    normalized. *)
Definition bind_key (values_json : Dict.t Any)
    (available : Env.Bindings declared) (namespace : string)
    (ans : Env.Bindings Value) (key : string) : result (Env.Bindings Value) :=
  if negb (is_comment key) then
    let key2 := lookup_name available namespace key in
    match Env.resolve available key2 with
    | None => Raise (InputError ("unknown input/output: " ++ key))
    | Some ty =>
        match Dict.get values_json key with
        | None => Raise (KeyError key)
        | Some j =>
            v <- from_json (declared_type ty) j ;;
            Ok (Env.bind key2 v ans)
        end
    end
  else Ok ans.

(** Lines 177-194: the loop [for key in values_json], from the bindings
    [ans] built so far; it stops at the first exception. *)
Fixpoint bind_keys (values_json : Dict.t Any)
    (available : Env.Bindings declared) (namespace : string)
    (keys : list string) (ans : Env.Bindings Value)
  : result (Env.Bindings Value) :=
  match keys with
  | [] => Ok ans
  | key :: keys' =>
      ans' <- bind_key values_json available namespace ans key ;;
      bind_keys values_json available namespace keys' ans'
  end.

(** Lines 195-201: the check of the required names. *)
Definition check_required (required : option (Env.Bindings declared))
    (ans : Env.Bindings Value) : result (Env.Bindings Value) :=
  match required with
  | None => Ok ans
  | Some required =>
      if Env.nonempty required then
        let missing := Env.subtract required ans in
        if Env.nonempty missing then
          Raise (InputError
                   ("missing required inputs/outputs: "
                    ++ Str.join ", "
                         (Dict.keys
                            (values_to_json json_of_declared missing ""))))
        else Ok ans
      else Ok ans
  end.

(** [values_from_json(values_json, available, required, namespace)] *)
Definition values_from_json (values_json : Dict.t Any)
    (available : Env.Bindings declared)
    (required : option (Env.Bindings declared))
    (namespace : string) : result (Env.Bindings Value) :=
  let namespace := normalize_namespace namespace in
  ans <- bind_keys values_json available namespace
           (Dict.keys values_json) (Env.empty Value) ;;
  check_required required ans.

End Marshal.

(** ** A small instance of the marshalling parameters

    Two scalar types, with a conversion that rejects a JSON value of the
    wrong kind; the definitions above can be run on it. *)

Module Sample.

Inductive ty : Type := TInt | TString.

Inductive json : Type :=
| JInt (z : Z)
| JStr (s : string).

Inductive value : Type :=
| VInt (z : Z)
| VStr (s : string).

Record decl : Type := { decl_name : string; decl_ty : ty }.

Definition type_str (t : ty) : string :=
  match t with TInt => "Int" | TString => "String" end.

Definition value_json (v : value) : json :=
  match v with VInt z => JInt z | VStr s => JStr s end.

Definition from_json (t : ty) (j : json) : result value :=
  match t, j with
  | TInt, JInt z => Ok (VInt z)
  | TString, JStr s => Ok (VStr s)
  | _, _ => Raise (InputError "couldn't construct value from input")
  end.

End Sample.

(** ** The workflow runner

    [WDL.runtime] is not among the sources; tests/test_7runner.py drives it
    through [WDL.runtime.run]. The definitions of this module follow the
    specification of the workflow graph execution engine. Call caching, retry
    of the task backend, the resolution of input files and the run directory
    are left out. *)

Module Runtime.

(** Modelled from the spec: runtime values ([WDL.Value]), with the absent
    optional [VNull] that a Gather synthesizes for a skipped Conditional. *)
#[warnings="-register-all"]
Inductive value : Type :=
| VInt (z : Z)
| VBool (b : bool)
| VString (s : string)
| VFile (uri : string)
| VArray (items : list value)
| VNull.

(** Modelled from the spec: the expressions that the runner tests evaluate
    ([WDL.Expr]); the full expression language is outside the engine. *)
Inductive expr : Type :=
| Lit (v : value)
| Ident (name : string)
| Neq (a b : expr)
| Div (a b : expr)
| Mul (a b : expr).

(** Modelled from the spec: the error taxonomy of section 7. A RuntimeError
    is an expression evaluation fault or a failed assertion, the latter
    "carrying the literal expression source". *)
Inductive fault : Type :=
| EvalError (msg : string)
| AssertionFailed (source : string).

Inductive failure : Type :=
| RuntimeError (f : fault)
| CallFailed (call : string)
| DownloadFailed (uri : string)
| InternalError (msg : string).

(** Modelled from the spec: RunFailed, "wrapping the first underlying failure
    and listing secondary failures". *)
Inductive run_error : Type :=
| RunFailed (cause : failure) (secondary : list failure).

(** Modelled from the spec: the outcome of a node or of a scope, the
    bindings it produced or the failure it raised; a failure "carries the first
    failure encountered by wall-clock completion order", at the head, the
    "subsequent failures" after it. *)
Inductive attempt (A : Type) : Type :=
| Done (a : A)
| Failed (causes : list failure).

Arguments Done {A} a.
Arguments Failed {A} causes.

(** Modelled from the spec: "Env.Bindings of values", what the engine
    manipulates. *)
Definition env := Env.Bindings value.

(** Modelled from the spec: evaluation of an expression "against the
    currently-visible bindings"; "division by zero" is a runtime evaluation
    error. *)
Fixpoint eval (e : env) (x : expr) : failure + value :=
  match x with
  | Lit v => inr v
  | Ident name =>
      match Env.resolve e name with
      | Some v => inr v
      | None => inl (RuntimeError (EvalError ("unknown identifier " ++ name)))
      end
  | Neq a b =>
      match eval e a, eval e b with
      | inl f, _ => inl f
      | _, inl f => inl f
      | inr (VInt x), inr (VInt y) => inr (VBool (negb (Z.eqb x y)))
      | inr (VBool x), inr (VBool y) => inr (VBool (negb (Bool.eqb x y)))
      | inr (VString x), inr (VString y) => inr (VBool (negb (String.eqb x y)))
      | _, _ => inl (RuntimeError (EvalError "cannot compare"))
      end
  | Div a b =>
      match eval e a, eval e b with
      | inl f, _ => inl f
      | _, inl f => inl f
      | inr (VInt x), inr (VInt y) =>
          if Z.eqb y 0 then inl (RuntimeError (EvalError "division by zero"))
          else inr (VInt (Z.div x y))
      | _, _ => inl (RuntimeError (EvalError "not an integer"))
      end
  | Mul a b =>
      match eval e a, eval e b with
      | inl f, _ => inl f
      | _, inl f => inl f
      | inr (VInt x), inr (VInt y) => inr (VInt (Z.mul x y))
      | _, _ => inl (RuntimeError (EvalError "not an integer"))
      end
  end.

(** Modelled from the spec: WorkflowNode and its variants (section 3). An
    assertion is a declaration-like node that binds no name. A Call carries
    the names of the outputs its callee declares. *)
#[warnings="-register-all"]
Inductive node : Type :=
| Decl (name : string) (x : expr)
| Assert (x : expr) (source : string)
| Call (name callee : string) (inputs : list (string * expr))
    (outputs : list string)
| Scatter (variable : string) (collection : expr) (body : list node)
| Conditional (guard : expr) (body : list node).

(** Modelled from the spec: what the execution of a node leaves in the
    record of the run (RunState): the evaluation of a declaration, of an
    assertion, or the invocation of the backend for a Call. *)
Inductive event : Type :=
| Evaluated (name : string)
| Asserted (source : string)
| Called (name : string).


(** Modelled from the spec: the "free variable names referenced by" an
    expression. *)
Fixpoint expr_reads (x : expr) : list string :=
  match x with
  | Lit _ => []
  | Ident name => [name]
  | Neq a b | Div a b | Mul a b => expr_reads a ++ expr_reads b
  end%list.

(** Modelled from the spec: the produces set of a node; for a section, the
    names of its Gather nodes, "one per name declared inside" its body. *)
Fixpoint produces (n : node) : list string :=
  match n with
  | Decl name _ => [name]
  | Assert _ _ => []
  | Call name _ _ outputs => map (fun o => name ++ "." ++ o) outputs
  | Scatter _ _ body => flat_map produces body
  | Conditional _ body => flat_map produces body
  end.

(** Modelled from the spec: the reads set of a node, "free variable names
    referenced by its expressions/inputs, excluding names it binds
    internally". *)
Fixpoint reads (n : node) : list string :=
  match n with
  | Decl _ x => expr_reads x
  | Assert x _ => expr_reads x
  | Call _ _ inputs _ => flat_map (fun i => expr_reads (snd i)) inputs
  | Scatter variable collection body =>
      expr_reads collection ++
      filter (fun r => negb (Env.mem r (variable :: flat_map produces body)))
        (flat_map reads body)
  | Conditional guard body =>
      expr_reads guard ++
      filter (fun r => negb (Env.mem r (flat_map produces body)))
        (flat_map reads body)
  end%list.

(** Modelled from the spec: a node is ready when its "reads are fully
    satisfied by the current accumulated bindings". *)
Definition is_ready (e : env) (n : node) : bool :=
  forallb (Env.has_binding e) (reads n).

(** Modelled from the spec: the order in which [n] units of work dispatched
    together complete is not determined by the engine; [completion n] lists
    their indices in completion order. *)
Record scheduler : Type := { completion : nat -> list nat }.

(** Modelled from the spec: every unit dispatched completes, once: the
    completion order of [n] units is a permutation of their indices. *)
Definition fair (s : scheduler) : Prop :=
  forall n, Permutation (completion s n) (seq 0 n).

(** Modelled from the spec: a completion order, the units completing in
    the order of their dispatch. *)
Definition in_order : scheduler := {| completion := seq 0 |}.

(** Modelled from the spec: the results of the units dispatched together,
    each with its dispatch index, listed in completion order. *)
Definition completed {A : Type} (s : scheduler) (results : list A)
  : list (nat * A) :=
  flat_map
    (fun i => match nth_error results i with
              | Some r => [(i, r)]
              | None => []
              end)
    (completion s (List.length results)).

(** Modelled from the spec: what a unit of work gives back, its part of the
    record of the run and its bindings or failure. *)
Definition outcome := (list event * attempt env)%type.

(** Modelled from the spec: the record of the run left by the completed
    units, in completion order. *)
Definition logs {A : Type} (done : list (nat * (list event * A)))
  : list event :=
  flat_map (fun r => fst (snd r)) done.

(** Modelled from the spec: the failures of the completed units, "the first
    failure encountered by wall-clock completion order" first. *)
Definition failures (done : list (nat * outcome)) : list failure :=
  flat_map
    (fun r => match snd (snd r) with Failed fs => fs | Done _ => [] end) done.

(** Modelled from the spec: "merge its produced bindings into the scope's
    accumulated bindings", on each completion. *)
Definition merged (done : list (nat * outcome)) (acc : env) : env :=
  fold_left
    (fun acc r => match snd (snd r) with
                  | Done b => (b ++ acc)%list
                  | Failed _ => acc
                  end)
    done acc.

(** Modelled from the spec: the bindings produced by the unit dispatched at
    index [i], "iteration index is significant". *)
Definition result_of (done : list (nat * outcome)) (i : nat) : option env :=
  match find (fun r => Nat.eqb (fst r) i) done with
  | Some (_, (_, Done b)) => Some b
  | _ => None
  end.

(** Modelled from the spec: the Gather of a Scatter, "a name of type T
    declared inside a Scatter of iteration count N is exposed as an array of T
    with exactly N elements", collected "preserving iteration order, not
    completion order". *)
Definition gather_array (count : nat) (done : list (nat * outcome))
    (name : string) : value :=
  VArray
    (map (fun i =>
            match result_of done i with
            | Some b => match Env.resolve b name with
                        | Some v => v
                        | None => VNull
                        end
            | None => VNull
            end)
       (seq 0 count)).

(** Modelled from the spec: the Gather of a Conditional, "an optional T,
    present iff the guard was true". *)
Definition gather_optional (produced : option env) (name : string) : value :=
  match produced with
  | Some b => match Env.resolve b name with Some v => v | None => VNull end
  | None => VNull
  end.

Section Engine.

(** Modelled from the spec: the task backend interface,
    [execute(task_definition, resolved_inputs, ...) -> output_bindings];
    [None] is a permanent failure. *)
Variable backend : string -> env -> option env.
Variable sched : scheduler.

(** Modelled from the spec: a Call's "input Env.Bindings", each declared
    input evaluated against the visible bindings. *)
Fixpoint eval_inputs (e : env) (inputs : list (string * expr))
  : failure + env :=
  match inputs with
  | [] => inr []
  | (name, x) :: rest =>
      match eval e x with
      | inl f => inl f
      | inr v =>
          match eval_inputs e rest with
          | inl f => inl f
          | inr b => inr ((name, v) :: b)
          end
      end
  end.

(** Modelled from the spec: the graph scheduler of section 4.2 for one scope.
    Each round dispatches every pending node that is ready against the
    bindings visible at dispatch, merges what the nodes produced, and goes on
    with the nodes left; the scope fails as soon as a node fails, and with an
    internal error when nodes are left and none is ready. *)
Fixpoint rounds (exec1 : node -> env -> outcome) (k : nat)
    (pending : list node) (outer produced : env) : outcome :=
  match pending, k with
  | [], _ => ([], Done produced)
  | _ :: _, O => ([], Failed [InternalError "scheduler out of rounds"])
  | _ :: _, S k' =>
      let visible := (produced ++ outer)%list in
      match filter (is_ready visible) pending with
      | [] => ([], Failed [InternalError "no node is ready"])
      | ready =>
          let done := completed sched (map (fun n => exec1 n visible) ready) in
          match failures done with
          | [] =>
              let rest :=
                rounds exec1 k'
                  (filter (fun n => negb (is_ready visible n)) pending)
                  outer (merged done produced) in
              ((logs done ++ fst rest)%list, snd rest)
          | fs => (logs done, Failed fs)
          end
      end
  end.

(** Modelled from the spec: "drive one scope's subgraph to completion given
    an input Env.Bindings, returning the scope's produced Env.Bindings or a
    failure". Each round completes a node at least, so as many rounds as the
    scope has nodes are enough. *)
Definition run_scope (exec1 : node -> env -> outcome) (body : list node)
    (outer : env) : outcome :=
  rounds exec1 (List.length body) body outer [].

(** Modelled from the spec: the node executors (sections 4.2 to 4.4); [fuel]
    bounds the nesting of sections. *)
Fixpoint exec (fuel : nat) (n : node) (e : env) : outcome :=
  match fuel with
  | O => ([], Failed [InternalError "nesting too deep"])
  | S fuel' =>
      match n with
      | Decl name x =>
          match eval e x with
          | inr v => ([Evaluated name], Done [(name, v)])
          | inl f => ([Evaluated name], Failed [f])
          end
      | Assert x source =>
          match eval e x with
          | inr (VBool true) => ([Asserted source], Done [])
          | inr (VBool false) =>
              ([Asserted source],
               Failed [RuntimeError (AssertionFailed source)])
          | inr _ =>
              ([Asserted source],
               Failed [RuntimeError (EvalError "not a boolean")])
          | inl f => ([Asserted source], Failed [f])
          end
      | Call name callee inputs outputs =>
          match eval_inputs e inputs with
          | inl f => ([], Failed [f])
          | inr args =>
              match backend callee args with
              | None => ([Called name], Failed [CallFailed name])
              | Some outs =>
                  ([Called name],
                   Done (map (fun o =>
                                (name ++ "." ++ o,
                                 match Env.resolve outs o with
                                 | Some v => v
                                 | None => VNull
                                 end))
                           outputs))
              end
          end
      | Scatter variable collection body =>
          match eval e collection with
          | inl f => ([], Failed [f])
          | inr (VArray items) =>
              let done :=
                completed sched
                  (map (fun item =>
                          run_scope (exec fuel') body
                            (Env.bind variable item e))
                     items) in
              match failures done with
              | [] =>
                  (logs done,
                   Done (map (fun name =>
                                (name,
                                 gather_array (List.length items) done name))
                           (flat_map produces body)))
              | fs => (logs done, Failed fs)
              end
          | inr _ => ([], Failed [RuntimeError (EvalError "not an array")])
          end
      | Conditional guard body =>
          match eval e guard with
          | inl f => ([], Failed [f])
          | inr (VBool true) =>
              match run_scope (exec fuel') body e with
              | (log, Done b) =>
                  (log,
                   Done (map (fun name =>
                                (name, gather_optional (Some b) name))
                           (flat_map produces body)))
              | (log, Failed fs) => (log, Failed fs)
              end
          | inr (VBool false) =>
              ([],
               Done (map (fun name => (name, gather_optional None name))
                       (flat_map produces body)))
          | inr _ => ([], Failed [RuntimeError (EvalError "not a boolean")])
          end
      end
  end.

(** Modelled from the spec: the nesting of Scatter and Conditional sections
    in a node, which bounds the recursion of the executors. *)
Fixpoint depth (n : node) : nat :=
  match n with
  | Scatter _ _ body | Conditional _ body =>
      S (fold_right (fun m d => Nat.max (depth m) d) 0 body)
  | _ => 1
  end.

(** Modelled from the spec: the nesting of sections in a body. *)
Definition body_depth (body : list node) : nat :=
  fold_right (fun m d => Nat.max (depth m) d) 0 body.

(** Modelled from the spec: a Workflow, "a named graph of declarations,
    calls, and control-flow sections producing typed outputs"; its body and
    its output section, if it declares one. *)
Record workflow : Type := {
  wf_name : string;
  wf_body : list node;
  wf_outputs : option (list (string * expr))
}.

(** Modelled from the spec: the output section, evaluated on success of the
    body, each output seeing the ones before it. *)
Fixpoint eval_outputs (e : env) (outputs : list (string * expr))
    (acc : env) : failure + env :=
  match outputs with
  | [] => inr acc
  | (name, x) :: rest =>
      match eval (acc ++ e)%list x with
      | inl f => inl f
      | inr v => eval_outputs e rest ((name, v) :: acc)
      end
  end.

(** Modelled from the spec: [WDL.runtime.run] on a workflow and its input
    bindings: "the outermost call wraps the top-level body as one scope; on
    success, the final output bindings are computed either from an explicit
    output section or, if none declared, the union of all top-level produced
    bindings". The run driver "wraps the root cause in RunFailed". The
    resolution of File inputs on the network is not part of the model. *)
Definition run (w : workflow) (inputs : env)
  : list event * (run_error + env) :=
  match run_scope (exec (S (body_depth (wf_body w)))) (wf_body w) inputs with
  | (log, Failed fs) =>
      (log, inl (RunFailed (hd (InternalError "no cause") fs) (tl fs)))
  | (log, Done produced) =>
      match wf_outputs w with
      | None => (log, inr produced)
      | Some outputs =>
          match eval_outputs (produced ++ inputs)%list outputs [] with
          | inl f => (log, inl (RunFailed f []))
          | inr out => (log, inr out)
          end
      end
  end.

End Engine.



(** The inputs [{"numerator": n, "denominator": d}] of the test, as
    [values_from_json] binds them. *)
Definition div_inputs (n d : Z) : env :=
  Env.bind "denominator" (VInt d)
    (Env.bind "numerator" (VInt n) (Env.empty value)).

(** The workflow [wf1] with a Call that reads nothing beside its
    assertion. *)
Definition wf1_with_call : workflow := {|
  wf_name := "div";
  wf_body := [Assert (Neq (Ident "denominator") (Lit (VInt 0)))
                "denominator != 0";
              Call "c" "t" [] []];
  wf_outputs :=
    Some [("quotient", Div (Ident "numerator") (Ident "denominator"))]
|}.

(** A backend on which every task fails. *)
Definition no_backend : string -> env -> option env := fun _ _ => None.

(** A scheduler under which the units dispatched together complete in the
    reverse of their dispatch order. *)
Definition last_first : scheduler :=
  {| completion := fun n => rev (seq 0 n) |}.

(** [scatter (x in [1, 2, 3]) { Int y = x * 2 }] *)
Definition doubling : node :=
  Scatter "x" (Lit (VArray [VInt 1; VInt 2; VInt 3]))
    [Decl "y" (Mul (Ident "x") (Lit (VInt 2)))].

End Runtime.

(** ** Proof automation *)

(** Case analysis on every [match] scrutinee of a hypothesis. *)
Ltac split_match H :=
  repeat match type of H with
         | context [match ?x with _ => _ end] => destruct x eqn:?
         end.
(** * Properties *)

(** ** Strings *)

Lemma prefix_app (p s : string) : String.prefix p (p ++ s) = true.
Proof.
  induction p as [|c p IH]; simpl.
  - now destruct s.
  - destruct (ascii_dec c c) as [_|n]; [exact IH | now elim n].
Qed.

Lemma prefix_inv (p s : string) :
  String.prefix p s = true -> exists r, s = p ++ r.
Proof.
  revert s; induction p as [|c p IH]; intros s H.
  - now exists s.
  - destruct s as [|c' s]; [discriminate|]. simpl in H.
    destruct (ascii_dec c c') as [->|_]; [|discriminate].
    destruct (IH _ H) as [r ->]. now exists r.
Qed.

Lemma slice_from_app (p s : string) :
  Str.slice_from (String.length p) (p ++ s) = s.
Proof. induction p as [|c p IH]; simpl; [now destruct s | exact IH]. Qed.

Lemma append_assoc (a b c : string) : (a ++ b) ++ c = a ++ (b ++ c).
Proof. induction a as [|x a IH]; simpl; [reflexivity | now rewrite IH]. Qed.

Lemma append_nil_r (a : string) : a ++ "" = a.
Proof. induction a as [|x a IH]; simpl; [reflexivity | now rewrite IH]. Qed.

Lemma append_inj_l (p a b : string) : p ++ a = p ++ b -> a = b.
Proof.
  induction p as [|c p IH]; simpl; intros H; [exact H|].
  injection H as H. now apply IH.
Qed.

Lemma endswith_app (s p : string) : Str.endswith (s ++ p) p = true.
Proof.
  induction s as [|c s IH]; simpl.
  - destruct p; simpl; [reflexivity|].
    now rewrite Ascii.eqb_refl, String.eqb_refl.
  - rewrite IH. apply orb_true_r.
Qed.

Lemma nonempty_app_r (s p : string) :
  Str.nonempty p = true -> Str.nonempty (s ++ p) = true.
Proof. destruct s, p; simpl; congruence. Qed.

Lemma split_free (s : string) :
  Str.free_of "." s = true -> Str.split "." s = [s].
Proof.
  induction s as [|c s IH]; simpl; [reflexivity|].
  intros H. apply andb_true_iff in H as [Hc Hs].
  apply negb_true_iff in Hc. rewrite Hc, (IH Hs). reflexivity.
Qed.

Lemma split_app_dot (a r : string) :
  Str.free_of "." a = true ->
  Str.split "." (a ++ "." ++ r) = a :: Str.split "." r.
Proof.
  induction a as [|c a IH]; simpl; intros H; [reflexivity|].
  apply andb_true_iff in H as [Hc Ha].
  apply negb_true_iff in Hc. rewrite Hc.
  change (Str.split "." (a ++ String "." r)) with (Str.split "." (a ++ "." ++ r)).
  now rewrite (IH Ha).
Qed.

Lemma split_not_nil (sep : ascii) (s : string) : Str.split sep s <> [].
Proof.
  destruct s as [|c s]; simpl; [discriminate|].
  destruct (Ascii.eqb c sep); [discriminate|].
  destruct (Str.split sep s); discriminate.
Qed.

Lemma split_parts_free (s : string) :
  Forall (fun p => Str.free_of "." p = true) (Str.split "." s).
Proof.
  induction s as [|c s IH]; simpl; [constructor; [reflexivity | constructor]|].
  destruct (Ascii.eqb c ".") eqn:E; [constructor; [reflexivity | exact IH]|].
  destruct (Str.split "." s) as [|h t] eqn:Es;
    [now elim (split_not_nil "." s)|].
  inversion IH; subst. constructor; [|assumption]. simpl. now rewrite E.
Qed.

Lemma join_split (s : string) : Str.join "." (Str.split "." s) = s.
Proof.
  unfold Str.join. induction s as [|c s IH]; simpl; [reflexivity|].
  destruct (Ascii.eqb_spec c ".") as [->|_].
  - destruct (Str.split "." s) as [|h t] eqn:E;
      [now elim (split_not_nil "." s)|].
    simpl in *. now rewrite IH.
  - destruct (Str.split "." s) as [|h t] eqn:E;
      [now elim (split_not_nil "." s)|].
    simpl in *. destruct t; simpl in *; now rewrite <- IH.
Qed.

Example split_three_parts : Str.split "." "call.sub.input" = ["call"; "sub"; "input"].
Proof. reflexivity. Qed.

Example split_empty_part : Str.split "." "a..c" = ["a"; ""; "c"].
Proof. reflexivity. Qed.

Example split_no_dot : Str.split "." "" = [""].
Proof. reflexivity. Qed.

(** ** Dictionaries *)

Section DictFacts.
Variable A : Type.
Implicit Types (d : Dict.t A) (k : string) (v : A).

Lemma dict_get_in_keys d k :
  In k (Dict.keys d) -> exists v, Dict.get d k = Some v.
Proof.
  induction d as [|[k' v'] d IH]; simpl; [tauto|].
  intros [->|H].
  - rewrite String.eqb_refl. now exists v'.
  - destruct (k' =? k); [now exists v' | auto].
Qed.

Lemma dict_get_none d k : ~ In k (Dict.keys d) -> Dict.get d k = None.
Proof.
  induction d as [|[k' v'] d IH]; simpl; [reflexivity|].
  intros H. destruct (String.eqb_spec k' k) as [->|_]; [tauto|].
  apply IH. tauto.
Qed.

Lemma dict_keys_set_in d k v :
  In k (Dict.keys d) -> Dict.keys (Dict.set d k v) = Dict.keys d.
Proof.
  induction d as [|[k' v'] d IH]; simpl; [tauto|].
  intros H. destruct (String.eqb_spec k' k) as [->|Hn]; simpl; [reflexivity|].
  f_equal. apply IH. destruct H; [contradiction | assumption].
Qed.

Lemma dict_keys_set_new d k v :
  ~ In k (Dict.keys d) ->
  Dict.keys (Dict.set d k v) = (Dict.keys d ++ [k])%list.
Proof.
  induction d as [|[k' v'] d IH]; simpl; [reflexivity|].
  intros H. destruct (String.eqb_spec k' k) as [->|Hn]; simpl; [tauto|].
  f_equal. apply IH. tauto.
Qed.

Lemma dict_get_set d k v k' :
  Dict.get (Dict.set d k v) k' = if k =? k' then Some v else Dict.get d k'.
Proof.
  induction d as [|[k0 v0] d IH]; simpl.
  - reflexivity.
  - destruct (String.eqb_spec k0 k) as [->|Hn]; simpl.
    + now destruct (k =? k').
    + rewrite IH. destruct (String.eqb_spec k0 k') as [->|_]; [|reflexivity].
      destruct (String.eqb_spec k k') as [->|_]; [now elim Hn | reflexivity].
Qed.

Lemma dict_set_wf d k v : Dict.wf d -> Dict.wf (Dict.set d k v).
Proof.
  unfold Dict.wf. intros H.
  destruct (in_dec string_dec k (Dict.keys d)) as [Hin|Hn].
  - now rewrite dict_keys_set_in.
  - rewrite dict_keys_set_new by assumption.
    apply NoDup_app; [assumption | repeat constructor; simpl; tauto |].
    intros x Hx [<-|[]]. contradiction.
Qed.

Lemma dict_get_filter (f : string -> bool) d k :
  f k = true ->
  Dict.get (filter (fun kv => f (fst kv)) d) k = Dict.get d k.
Proof.
  intros Hk. induction d as [|[k' v'] d IH]; simpl; [reflexivity|].
  destruct (String.eqb_spec k' k) as [->|Hn].
  - rewrite Hk. simpl. now rewrite String.eqb_refl.
  - destruct (f k'); simpl; [|exact IH].
    destruct (String.eqb_spec k' k); [contradiction | exact IH].
Qed.

End DictFacts.

(** ** Environments *)

Section EnvFacts.
Variable V : Type.
Implicit Types (env : Env.Bindings V) (seen : list string).

Lemma mem_in n l : Env.mem n l = true <-> In n l.
Proof.
  unfold Env.mem. rewrite existsb_exists. split.
  - intros (x & Hx & He). apply String.eqb_eq in He. now subst.
  - intros H. exists n. now rewrite String.eqb_refl.
Qed.

Lemma mem_not_in n l : Env.mem n l = false <-> ~ In n l.
Proof.
  rewrite <- mem_in. destruct (Env.mem n l); split; congruence.
Qed.

Lemma has_binding_resolve env n :
  Env.has_binding env n = true <-> exists v, Env.resolve env n = Some v.
Proof.
  unfold Env.has_binding. destruct (Env.resolve env n) as [v|].
  - split; [now exists v | reflexivity].
  - split; [discriminate | now intros [v H]].
Qed.

Lemma has_binding_in env n :
  Env.has_binding env n = true <-> In n (map fst env).
Proof.
  unfold Env.has_binding.
  induction env as [|[n' v'] env IH]; simpl; [split; [discriminate | tauto]|].
  destruct (String.eqb_spec n' n) as [->|Hn].
  - split; auto.
  - rewrite IH. split; [auto | intros [H|H]; [contradiction | assumption]].
Qed.

Lemma in_items_masked seen env n v :
  In (n, v) (Env.items_masked seen env) <->
  ~ In n seen /\ Env.resolve env n = Some v.
Proof.
  revert seen. induction env as [|[n' v'] env IH]; intros seen; simpl.
  - split; [tauto | now intros [_ H]].
  - destruct (Env.mem n' seen) eqn:Hm.
    + apply mem_in in Hm. rewrite IH.
      destruct (String.eqb_spec n' n) as [->|Hn]; [tauto | reflexivity].
    + apply mem_not_in in Hm. simpl. rewrite IH. simpl.
      destruct (String.eqb_spec n' n) as [->|Hn].
      * split.
        -- intros [H|[H _]]; [injection H as ->; auto | tauto].
        -- intros [_ H]. injection H as ->. now left.
      * split.
        -- intros [H|[H H']]; [injection H as H _; contradiction | tauto].
        -- intros [H H']. right. split; [|assumption].
           intros [E|E]; [contradiction | contradiction].
Qed.

Lemma in_items env n v :
  In (n, v) (Env.items env) <-> Env.resolve env n = Some v.
Proof. unfold Env.items. rewrite in_items_masked. simpl. tauto. Qed.

Lemma in_names env n :
  In n (Env.names env) <-> Env.has_binding env n = true.
Proof.
  unfold Env.names. rewrite in_map_iff, has_binding_resolve. split.
  - intros ([n' v] & <- & H). exists v. now apply in_items.
  - intros [v H]. exists (n, v). split; [reflexivity | now apply in_items].
Qed.

Lemma names_masked_nodup seen env :
  NoDup (map fst (Env.items_masked seen env)).
Proof.
  revert seen. induction env as [|[n' v'] env IH]; intros seen; simpl.
  - constructor.
  - destruct (Env.mem n' seen) eqn:Hm; [apply IH|].
    simpl. constructor; [|apply IH].
    rewrite in_map_iff. intros ([n v] & E & H). simpl in E. subst n.
    apply in_items_masked in H. simpl in H. tauto.
Qed.

Lemma names_nodup env : NoDup (Env.names env).
Proof. apply names_masked_nodup. Qed.

(** Iteration commutes with a filter on names. *)
Lemma items_masked_filter (p : string -> bool) seen seen' env :
  (forall n, p n = true -> Env.mem n seen = Env.mem n seen') ->
  Env.items_masked seen (filter (fun b => p (fst b)) env) =
  filter (fun b => p (fst b)) (Env.items_masked seen' env).
Proof.
  revert seen seen'. induction env as [|[n v] env IH]; intros seen seen' H.
  - reflexivity.
  - simpl. destruct (p n) eqn:Hp; simpl.
    + rewrite (H n Hp).
      destruct (Env.mem n seen') eqn:Hm; [now apply IH|].
      simpl. rewrite Hp. f_equal. apply IH.
      intros m Hpm. unfold Env.mem. simpl.
      fold (Env.mem m seen) (Env.mem m seen').
      now rewrite (H m Hpm).
    + destruct (Env.mem n seen') eqn:Hm; [now apply IH|].
      simpl. rewrite Hp. apply IH.
      intros m Hpm. unfold Env.mem at 2. simpl. fold (Env.mem m seen').
      destruct (String.eqb_spec m n) as [->|_]; [congruence|].
      now apply H.
Qed.

Lemma names_subtract (W : Type) env (rhs : Env.Bindings W) :
  Env.names (Env.subtract env rhs) =
  filter (fun n => negb (Env.has_binding rhs n)) (Env.names env).
Proof.
  unfold Env.names, Env.items, Env.subtract.
  rewrite (items_masked_filter (fun n => negb (Env.has_binding rhs n)) [] [])
    by reflexivity.
  generalize (Env.items_masked [] env) as l.
  induction l as [|[n v] l IH]; simpl; [reflexivity|].
  destruct (negb (Env.has_binding rhs n)); simpl; now rewrite IH.
Qed.

Lemma nonempty_names env :
  Env.nonempty env = true <-> Env.names env <> [].
Proof.
  destruct env as [|[n v] env]; simpl.
  - split; [discriminate | intros H; now elim H].
  - split; [discriminate | reflexivity].
Qed.

End EnvFacts.

(** ** values_to_json *)

Section ToJsonFacts.
Variables Any V : Type.
Variable json_of : V -> Any.

Lemma normalize_namespace_dotted (ns : string) :
  Str.nonempty ns = true -> Str.endswith ns "." = false ->
  normalize_namespace ns = ns ++ ".".
Proof. unfold normalize_namespace. now intros -> ->. Qed.

Lemma normalize_namespace_idem (ns : string) :
  normalize_namespace (normalize_namespace ns) = normalize_namespace ns.
Proof.
  unfold normalize_namespace.
  destruct (Str.nonempty ns && negb (Str.endswith ns ".")) eqn:E.
  - rewrite endswith_app. simpl. now rewrite andb_false_r.
  - now rewrite E.
Qed.

Lemma keys_fold_put (ns : string) (l : list (string * V)) (d : Dict.t Any) :
  NoDup (map fst l) ->
  (forall n, In n (map fst l) -> ~ In (ns ++ n) (Dict.keys d)) ->
  Dict.keys (fold_left (put_item json_of ns) l d) =
  app (Dict.keys d) (map (fun n => ns ++ n) (map fst l)).
Proof.
  revert d. induction l as [|[n v] l IH]; intros d Hnd Hfresh; simpl.
  - now rewrite app_nil_r.
  - inversion Hnd as [|? ? Hn Hnd']; subst.
    rewrite IH; [|assumption|].
    + unfold put_item at 1. simpl.
      rewrite dict_keys_set_new by (apply Hfresh; now left).
      now rewrite <- app_assoc.
    + intros m Hm. unfold put_item. simpl.
      rewrite dict_keys_set_new by (apply Hfresh; now left).
      rewrite in_app_iff. intros [H|[H|[]]].
      * revert H. apply Hfresh. now right.
      * apply append_inj_l in H. subst m. contradiction.
Qed.

Lemma get_fold_put_out (ns n : string) (l : list (string * V)) (d : Dict.t Any) :
  ~ In n (map fst l) ->
  Dict.get (fold_left (put_item json_of ns) l d) (ns ++ n) = Dict.get d (ns ++ n).
Proof.
  revert d. induction l as [|[m v] l IH]; intros d Hn; simpl; [reflexivity|].
  simpl in Hn. rewrite IH by tauto. unfold put_item. simpl.
  rewrite dict_get_set.
  destruct (String.eqb_spec (ns ++ m) (ns ++ n)) as [E|_]; [|reflexivity].
  apply append_inj_l in E. tauto.
Qed.

Lemma get_fold_put_in (ns n : string) (v : V) (l : list (string * V))
    (d : Dict.t Any) :
  NoDup (map fst l) -> In (n, v) l ->
  Dict.get (fold_left (put_item json_of ns) l d) (ns ++ n) = Some (json_of v).
Proof.
  revert d. induction l as [|[m w] l IH]; intros d Hnd Hin; simpl; [easy|].
  inversion Hnd as [|? ? Hm Hnd']; subst.
  destruct Hin as [E|Hin].
  - injection E as -> ->. rewrite get_fold_put_out by assumption.
    unfold put_item. simpl. now rewrite dict_get_set, String.eqb_refl.
  - now apply IH.
Qed.

Lemma keys_values_to_json (env : Env.Bindings V) (ns : string) :
  Dict.keys (values_to_json json_of env ns) =
  map (fun n => normalize_namespace ns ++ n) (Env.names env).
Proof.
  unfold values_to_json.
  rewrite keys_fold_put; [reflexivity | apply names_nodup | intros n _ []].
Qed.

Lemma get_values_to_json (env : Env.Bindings V) (ns n : string) :
  Dict.get (values_to_json json_of env ns) (normalize_namespace ns ++ n) =
  option_map json_of (Env.resolve env n).
Proof.
  unfold values_to_json.
  destruct (Env.resolve env n) as [v|] eqn:E; simpl.
  - apply get_fold_put_in; [apply names_nodup | now apply in_items].
  - rewrite get_fold_put_out; [reflexivity|].
    fold (Env.names env). rewrite in_names, has_binding_resolve.
    intros [v H]. congruence.
Qed.

Lemma values_to_json_wf (env : Env.Bindings V) (ns : string) :
  Dict.wf (values_to_json json_of env ns).
Proof.
  unfold values_to_json.
  assert (H : Dict.wf (@nil (string * Any))) by constructor.
  revert H. generalize (@nil (string * Any)) as d.
  induction (Env.items env) as [|i l IH]; intros d Hd; simpl; [assumption|].
  apply IH. now apply dict_set_wf.
Qed.

End ToJsonFacts.

(** ** values_from_json *)

Section FromJsonFacts.
Variables Ty Decl Value Any : Type.
Variable decl_type : Decl -> Ty.
Variable type_str : Ty -> string.
Variable any_of_str : string -> Any.
Variable value_json : Value -> Any.
Variable from_json : Ty -> Any -> result Value.

Implicit Types (values_json : Dict.t Any) (ans : Env.Bindings Value).
Implicit Types (available : Env.Bindings (declared Ty Decl)).
Implicit Types (key namespace : string).

Lemma bind_key_comment values_json available namespace ans key :
  is_comment key = true ->
  bind_key decl_type from_json values_json available namespace ans key = Ok ans.
Proof. unfold bind_key. now intros ->. Qed.

Lemma bind_key_unknown values_json available namespace ans key :
  is_comment key = false -> known available namespace key = false ->
  bind_key decl_type from_json values_json available namespace ans key =
  Raise (InputError ("unknown input/output: " ++ key)).
Proof.
  unfold bind_key, known, Env.has_binding. intros -> H. simpl.
  now destruct (Env.resolve available (lookup_name available namespace key)).
Qed.

Lemma bind_key_known values_json available namespace ans key ty j :
  is_comment key = false ->
  Env.resolve available (lookup_name available namespace key) = Some ty ->
  Dict.get values_json key = Some j ->
  bind_key decl_type from_json values_json available namespace ans key =
  (v <- from_json (declared_type decl_type ty) j ;;
   Ok (Env.bind (lookup_name available namespace key) v ans)).
Proof. unfold bind_key. now intros -> -> ->. Qed.

Lemma bind_keys_app values_json available namespace pre post ans :
  bind_keys decl_type from_json values_json available namespace
    (pre ++ post)%list ans =
  (ans' <- bind_keys decl_type from_json values_json available namespace pre ans ;;
   bind_keys decl_type from_json values_json available namespace post ans').
Proof.
  revert ans. induction pre as [|k pre IH]; intros ans; simpl; [reflexivity|].
  destruct (bind_key decl_type from_json values_json available namespace ans k);
    simpl; [apply IH | reflexivity].
Qed.


(** Over keys that are comments or known, the loop either goes through or
    stops at a value that [from_json] rejects. *)
Lemma bind_keys_known values_json available namespace keys ans :
  incl keys (Dict.keys values_json) ->
  (forall k, In k keys ->
     is_comment k = true \/ known available namespace k = true) ->
  (exists ans',
     bind_keys decl_type from_json values_json available namespace keys ans
     = Ok ans') \/
  (exists k ty j e,
     In k keys /\ is_comment k = false /\
     Env.resolve available (lookup_name available namespace k) = Some ty /\
     Dict.get values_json k = Some j /\
     from_json (declared_type decl_type ty) j = Raise e /\
     bind_keys decl_type from_json values_json available namespace keys ans
     = Raise e).
Proof.
  revert ans. induction keys as [|k keys IH]; intros ans Hin Hk; simpl.
  - left. now exists ans.
  - assert (Hin' : incl keys (Dict.keys values_json))
      by (intros x Hx; apply Hin; now right).
    assert (Hk' : forall k, In k keys ->
              is_comment k = true \/ known available namespace k = true)
      by (intros x Hx; apply Hk; now right).
    destruct (is_comment k) eqn:Hc.
    + rewrite bind_key_comment by assumption. simpl.
      destruct (IH ans Hin' Hk') as [H|(k' & ty & j & e & H1 & H)];
        [now left | right].
      exists k', ty, j, e. split; [now right | exact H].
    + destruct (Hk k (or_introl eq_refl)) as [H|H]; [congruence|].
      apply has_binding_resolve in H as [ty Hty].
      destruct (dict_get_in_keys values_json k (Hin k (or_introl eq_refl)))
        as [j Hj].
      rewrite (bind_key_known _ _ _ _ _ Hc Hty Hj).
      destruct (from_json (declared_type decl_type ty) j) as [v|e] eqn:Hv; simpl.
      * destruct (IH (Env.bind (lookup_name available namespace k) v ans)
                    Hin' Hk') as [H|(k' & ty' & j' & e & H1 & H)];
          [now left | right].
        exists k', ty', j', e. split; [now right | exact H].
      * right. exists k, ty, j, e. repeat split; auto. all: now left.
Qed.


Lemma keys_values_to_json_bare (V : Type) (json_of : V -> Any)
    (env : Env.Bindings V) :
  Dict.keys (values_to_json json_of env "") = Env.names env.
Proof.
  rewrite keys_values_to_json. simpl.
  induction (Env.names env) as [|n l IH]; simpl; [reflexivity | now rewrite IH].
Qed.

Lemma check_required_missing (required : Env.Bindings (declared Ty Decl)) ans :
  let missing :=
    filter (fun n => negb (Env.has_binding ans n)) (Env.names required) in
  check_required decl_type type_str any_of_str (Some required) ans =
  match missing with
  | [] => Ok ans
  | _ => Raise (InputError ("missing required inputs/outputs: "
                             ++ Str.join ", " missing))
  end.
Proof.
  intros missing. unfold check_required.
  rewrite keys_values_to_json_bare, names_subtract. fold missing.
  destruct (Env.nonempty required) eqn:Hreq.
  - destruct (Env.nonempty (Env.subtract required ans)) eqn:Hmiss.
    + apply nonempty_names in Hmiss. rewrite names_subtract in Hmiss.
      fold missing in Hmiss. now destruct missing.
    + destruct missing eqn:E; [reflexivity|].
      assert (H : Env.nonempty (Env.subtract required ans) = true).
      { apply nonempty_names. rewrite names_subtract. fold missing.
        now rewrite E. }
      congruence.
  - destruct required; [reflexivity | discriminate].
Qed.

(** C2: once the loop over the dict has built the bindings [ans], and
    [required] is given, [values_from_json] raises if and only if some name
    bound in [required] is not bound in [ans]; the exception is then the
    InputError whose message lists exactly those names (in the iteration order
    of [required], joined by ", "); when no required name is missing the
    result is [ans] itself. *)
Theorem values_from_json_required values_json available
    (required : Env.Bindings (declared Ty Decl)) namespace ans :
  bind_keys decl_type from_json values_json available
    (normalize_namespace namespace) (Dict.keys values_json) (Env.empty Value)
  = Ok ans ->
  let absent := fun name =>
    Env.has_binding required name = true /\ Env.has_binding ans name = false in
  let missing :=
    filter (fun n => negb (Env.has_binding ans n)) (Env.names required) in
  let outcome :=
    values_from_json decl_type type_str any_of_str from_json
      values_json available (Some required) namespace in
  (forall name, In name missing <-> absent name) /\
  ((exists name, absent name) <-> (exists e, outcome = Raise e)) /\
  ((exists name, absent name) ->
   outcome = Raise (InputError ("missing required inputs/outputs: "
                                 ++ Str.join ", " missing))) /\
  ((forall name, ~ absent name) -> outcome = Ok ans).
Proof.
  intros Hloop absent missing outcome.
  assert (Hmem : forall name, In name missing <-> absent name).
  { intros name. unfold missing, absent.
    rewrite filter_In, in_names, negb_true_iff. tauto. }
  assert (Hout : outcome =
            match missing with
            | [] => Ok ans
            | _ => Raise (InputError ("missing required inputs/outputs: "
                                       ++ Str.join ", " missing))
            end).
  { unfold outcome, values_from_json. rewrite Hloop. simpl.
    apply check_required_missing. }
  split; [exact Hmem|].
  destruct missing as [|m l] eqn:E.
  - assert (Hnone : forall name, ~ absent name)
      by (intros name H; now apply Hmem in H).
    repeat split.
    + intros [name H]. now elim (Hnone name).
    + intros [e He]. congruence.
    + intros [name H]. now elim (Hnone name).
    + intros _. exact Hout.
  - assert (Hsome : absent m) by (apply Hmem; now left).
    repeat split.
    + intros _. eexists. exact Hout.
    + intros _. now exists m.
    + intros _. exact Hout.
    + intros Hnone. now elim (Hnone m).
Qed.

(** The keys of the shape [a.b.c]: three non-empty parts without dots. *)
Lemma split_three (a b c : string) :
  Str.free_of "." a = true -> Str.free_of "." b = true ->
  Str.free_of "." c = true ->
  Str.split "." (a ++ "." ++ b ++ "." ++ c) = [a; b; c].
Proof.
  intros Ha Hb Hc.
  now rewrite (split_app_dot a _ Ha), (split_app_dot b _ Hb), (split_free c Hc).
Qed.

Lemma simplify_key_cases available key2 :
  simplify_key available key2 = key2 \/
  exists a b c,
    Str.split "." key2 = [a; b; c] /\
    Str.nonempty a = true /\ Str.nonempty b = true /\ Str.nonempty c = true /\
    Env.has_binding available key2 = false /\
    simplify_key available key2 = a ++ "." ++ c.
Proof.
  unfold simplify_key.
  destruct (Env.has_binding available key2); simpl; [now left|].
  destruct (Str.split "." key2) as [|a [|b [|c [|d l]]]]; try now left.
  destruct (Str.nonempty a) eqn:Ha; [|now left].
  destruct (Str.nonempty b) eqn:Hb; [|now left].
  destruct (Str.nonempty c) eqn:Hc; [|now left].
  right. exists a, b, c. auto 10.
Qed.

(** What one turn of the loop can do. *)
Lemma bind_key_ok_inv values_json available namespace ans key ans' :
  bind_key decl_type from_json values_json available namespace ans key
  = Ok ans' ->
  (is_comment key = true /\ ans' = ans) \/
  (is_comment key = false /\
   exists ty j v,
     Env.resolve available (lookup_name available namespace key) = Some ty /\
     Dict.get values_json key = Some j /\
     from_json (declared_type decl_type ty) j = Ok v /\
     ans' = Env.bind (lookup_name available namespace key) v ans).
Proof.
  unfold bind_key. destruct (is_comment key); simpl.
  - intros H. injection H as <-. now left.
  - destruct (Env.resolve available (lookup_name available namespace key))
      as [ty|]; [|discriminate].
    destruct (Dict.get values_json key) as [j|]; [|discriminate].
    destruct (from_json (declared_type decl_type ty) j) as [v|e] eqn:Hv;
      simpl; [|discriminate].
    intros H. injection H as <-. right. split; [reflexivity|].
    now exists ty, j, v.
Qed.

(** The names bound by the loop: one per key that is not a comment, the most
    recent first. *)
Lemma bind_keys_names values_json available namespace keys ans ans' :
  bind_keys decl_type from_json values_json available namespace keys ans
  = Ok ans' ->
  map fst ans' =
  app (rev (map (lookup_name available namespace)
              (filter (fun k => negb (is_comment k)) keys)))
      (map fst ans).
Proof.
  revert ans. induction keys as [|k keys IH]; intros ans; simpl.
  - intros H. now injection H as <-.
  - destruct (bind_key decl_type from_json values_json available namespace
                ans k) as [ans1|e] eqn:Hk; simpl; [|discriminate].
    intros H. rewrite (IH _ H).
    apply bind_key_ok_inv in Hk
      as [[Hc ->]|(Hc & ty & j & v & _ & _ & _ & ->)]; rewrite Hc; simpl.
    + reflexivity.
    + now rewrite <- app_assoc.
Qed.

(** The loop only reads the dict at the keys that are not comments. *)
Lemma bind_keys_ext values_json values_json' available namespace keys ans :
  (forall k, In k keys -> is_comment k = false ->
     Dict.get values_json k = Dict.get values_json' k) ->
  bind_keys decl_type from_json values_json available namespace keys ans =
  bind_keys decl_type from_json values_json' available namespace keys ans.
Proof.
  revert ans. induction keys as [|k keys IH]; intros ans H; simpl;
    [reflexivity|].
  assert (E : bind_key decl_type from_json values_json available namespace
                ans k =
              bind_key decl_type from_json values_json' available namespace
                ans k).
  { unfold bind_key. destruct (is_comment k) eqn:Hc; simpl; [reflexivity|].
    now rewrite (H k (or_introl eq_refl) Hc). }
  rewrite E.
  destruct (bind_key decl_type from_json values_json' available namespace
              ans k); simpl; [|reflexivity].
  apply IH. intros k' Hin. apply H. now right.
Qed.

Lemma bind_keys_skip_comments values_json available namespace keys ans :
  bind_keys decl_type from_json values_json available namespace keys ans =
  bind_keys decl_type from_json values_json available namespace
    (filter (fun k => negb (is_comment k)) keys) ans.
Proof.
  revert ans. induction keys as [|k keys IH]; intros ans; simpl;
    [reflexivity|].
  destruct (is_comment k) eqn:Hc; simpl.
  - rewrite bind_key_comment by assumption. simpl. apply IH.
  - destruct (bind_key decl_type from_json values_json available namespace
                ans k); simpl; [apply IH | reflexivity].
Qed.

(** C8: a key that starts with '#' leaves the bindings under construction
    as they are, whatever the available declarations and whatever its value;
    and [values_from_json] gives, on every dict, the outcome it gives on the
    dict without its '#' keys. *)
Theorem values_from_json_ignores_comments values_json available required
    namespace :
  (forall ans key,
     is_comment key = true ->
     bind_key decl_type from_json values_json available
       (normalize_namespace namespace) ans key = Ok ans) /\
  values_from_json decl_type type_str any_of_str from_json
    values_json available required namespace =
  values_from_json decl_type type_str any_of_str from_json
    (filter (fun kv => negb (is_comment (fst kv))) values_json)
    available required namespace.
Proof.
  split; [intros ans key; apply bind_key_comment|].
  unfold values_from_json. f_equal.
  assert (Hkeys :
    Dict.keys (filter (fun kv => negb (is_comment (fst kv))) values_json)
    = filter (fun k => negb (is_comment k)) (Dict.keys values_json)).
  { unfold Dict.keys. induction values_json as [|[k v] d IH]; simpl;
      [reflexivity|].
    destruct (negb (is_comment k)); simpl; now rewrite IH. }
  rewrite Hkeys.
  rewrite (bind_keys_skip_comments values_json available _
             (Dict.keys values_json)).
  apply bind_keys_ext. intros k _ Hc. symmetry.
  apply (dict_get_filter (fun k => negb (is_comment k))). now rewrite Hc.
Qed.

Lemma nonempty_neq (s : string) : s <> "" -> Str.nonempty s = true.
Proof. destruct s; [now intros H; elim H | reflexivity]. Qed.

Lemma normalize_namespace_app_dot (ns : string) :
  normalize_namespace (ns ++ ".") = ns ++ ".".
Proof.
  unfold normalize_namespace. rewrite endswith_app. simpl.
  now rewrite andb_false_r.
Qed.

(** C9: a non-empty namespace that does not end with a dot is the same
    namespace as the one with the dot appended, for [values_from_json] and for
    [values_to_json]; and the dict of [values_to_json] has, for each name of
    the environment, in iteration order, the key [namespace + "." + name],
    holding the JSON of the value the name resolves to. *)
Theorem namespace_trailing_dot (V : Type) (json_of : V -> Any)
    values_json available required (values_env : Env.Bindings V) namespace :
  namespace <> "" -> Str.endswith namespace "." = false ->
  values_from_json decl_type type_str any_of_str from_json
    values_json available required namespace =
  values_from_json decl_type type_str any_of_str from_json
    values_json available required (namespace ++ ".") /\
  values_to_json json_of values_env namespace =
  values_to_json json_of values_env (namespace ++ ".") /\
  Dict.keys (values_to_json json_of values_env namespace) =
  map (fun name => namespace ++ "." ++ name) (Env.names values_env) /\
  (forall name,
     Dict.get (values_to_json json_of values_env namespace)
       (namespace ++ "." ++ name) =
     option_map json_of (Env.resolve values_env name)) /\
  (forall key,
     In key (Dict.keys (values_to_json json_of values_env namespace)) ->
     exists name,
       key = namespace ++ "." ++ name /\
       Env.has_binding values_env name = true).
Proof.
  intros Hne Hdot.
  assert (Hn : normalize_namespace namespace = namespace ++ ".")
    by (apply normalize_namespace_dotted; [now apply nonempty_neq | assumption]).
  assert (Hkeys : Dict.keys (values_to_json json_of values_env namespace) =
                  map (fun name => namespace ++ "." ++ name)
                    (Env.names values_env)).
  { rewrite keys_values_to_json, Hn. apply map_ext. intros n.
    apply append_assoc. }
  repeat split.
  - unfold values_from_json.
    now rewrite Hn, normalize_namespace_app_dot.
  - unfold values_to_json.
    now rewrite Hn, normalize_namespace_app_dot.
  - exact Hkeys.
  - intros name.
    rewrite <- (get_values_to_json json_of values_env namespace name), Hn.
    now rewrite append_assoc.
  - rewrite Hkeys. intros key Hin. apply in_map_iff in Hin as (n & <- & Hin).
    exists n. split; [reflexivity | now apply in_names].
Qed.

Lemma strip_namespace_none key : strip_namespace "" key = key.
Proof. reflexivity. Qed.

Lemma simplify_key_available available key2 :
  Env.has_binding available key2 = true -> simplify_key available key2 = key2.
Proof. unfold simplify_key. now intros ->. Qed.

Lemma startswith_normalize key namespace :
  Str.startswith key namespace = false ->
  Str.startswith key (normalize_namespace namespace) = false.
Proof.
  unfold normalize_namespace, Str.startswith.
  destruct (Str.nonempty namespace && negb (Str.endswith namespace "."));
    [|auto].
  intros H. destruct (String.prefix (namespace ++ ".") key) eqn:E; [|reflexivity].
  apply prefix_inv in E as [r ->].
  now rewrite append_assoc, prefix_app in H.
Qed.

Lemma lookup_name_verbatim available namespace key :
  Str.startswith key (normalize_namespace namespace) = false \/ namespace = "" ->
  Env.has_binding available key = true ->
  lookup_name available (normalize_namespace namespace) key = key.
Proof.
  intros H Hav. unfold lookup_name.
  assert (E : strip_namespace (normalize_namespace namespace) key = key).
  { destruct H as [H| ->]; [|reflexivity].
    unfold strip_namespace. now rewrite H, andb_false_r. }
  rewrite E. now apply simplify_key_available.
Qed.

(** C10 (amended): a key that is not a comment, does not start with the
    namespace prefix, and names an available declaration as it is written, is
    looked up and bound under that very name: the turn of the loop converts
    its value and binds it under [key]; and whenever [values_from_json]
    returns bindings for a dict that has the key, [key] is bound in them. No
    InputError for an unknown input is raised for it. *)
Theorem values_from_json_verbatim_key values_json available namespace key ty j :
  is_comment key = false ->
  Str.startswith key (normalize_namespace namespace) = false \/ namespace = "" ->
  Env.resolve available key = Some ty ->
  Dict.get values_json key = Some j ->
  (forall ans,
     bind_key decl_type from_json values_json available
       (normalize_namespace namespace) ans key =
     (v <- from_json (declared_type decl_type ty) j ;;
      Ok (Env.bind key v ans))) /\
  (forall required ans,
     values_from_json decl_type type_str any_of_str from_json
       values_json available required namespace = Ok ans ->
     Env.has_binding ans key = true).
Proof.
  intros Hc Hns Hty Hj.
  assert (Hav : Env.has_binding available key = true)
    by (apply has_binding_resolve; now exists ty).
  pose proof (lookup_name_verbatim available key Hns Hav) as Hname.
  split.
  - intros ans.
    rewrite (bind_key_known values_json available _ ans key (ty:=ty) (j:=j));
      rewrite ?Hname; auto.
  - intros required ans. unfold values_from_json.
    destruct (bind_keys decl_type from_json values_json available
                (normalize_namespace namespace) (Dict.keys values_json)
                (Env.empty Value)) as [ans1|e] eqn:Hloop; simpl; [|discriminate].
    intros Hreq.
    assert (ans = ans1).
    { unfold check_required in Hreq. destruct required as [r|]; [|congruence].
      destruct (Env.nonempty r); [|congruence].
      destruct (Env.nonempty (Env.subtract r ans1)); congruence. }
    subst ans1. apply has_binding_in.
    rewrite (bind_keys_names _ _ _ _ _ Hloop). apply in_or_app. left.
    apply in_rev. rewrite rev_involutive. rewrite <- Hname at 1.
    apply in_map. apply filter_In. split; [|now rewrite Hc].
    unfold Dict.keys. clear -Hj.
    induction values_json as [|[k v] d IH]; simpl in *; [discriminate|].
    destruct (String.eqb_spec k key); [now left | right; auto].
Qed.

Lemma get_values_to_json_bare (V : Type) (json_of : V -> Any)
    (env : Env.Bindings V) (name : string) :
  Dict.get (values_to_json json_of env "") name =
  option_map json_of (Env.resolve env name).
Proof. exact (get_values_to_json json_of env "" name). Qed.

(** The loop goes through when every key is known and converts. *)
Lemma bind_keys_all_ok values_json available namespace keys ans :
  (forall k, In k keys ->
     is_comment k = true \/
     exists ty j v,
       Env.resolve available (lookup_name available namespace k) = Some ty /\
       Dict.get values_json k = Some j /\
       from_json (declared_type decl_type ty) j = Ok v) ->
  exists ans',
    bind_keys decl_type from_json values_json available namespace keys ans
    = Ok ans'.
Proof.
  revert ans. induction keys as [|k keys IH]; intros ans H; simpl.
  - now exists ans.
  - assert (H' : forall k, In k keys ->
              is_comment k = true \/
              exists ty j v,
                Env.resolve available (lookup_name available namespace k)
                = Some ty /\
                Dict.get values_json k = Some j /\
                from_json (declared_type decl_type ty) j = Ok v)
      by (intros x Hx; apply H; now right).
    destruct (is_comment k) eqn:Hc.
    + rewrite bind_key_comment by assumption. simpl. now apply IH.
    + destruct (H k (or_introl eq_refl)) as [E|(ty & j & v & Hty & Hj & Hv)];
        [congruence|].
      rewrite (bind_key_known values_json available namespace ans k Hc Hty Hj).
      rewrite Hv. simpl. now apply IH.
Qed.

(** C4 (amended): take bindings of values whose names are not comments
    and are all available, and such that [Value.from_json] accepts the JSON of
    each value at the type declared for its name. Reading back, with no
    namespace and no required names, the dict that [values_to_json] writes for
    them gives bindings with the same names (one binding per name, in the
    order of the dict). Without the condition on [Value.from_json], every
    result returned has these names, and the call can only fail by
    [Value.from_json] raising on one of the values. *)
Theorem values_round_trip (values_env : Env.Bindings Value) available :
  (forall name,
     Env.has_binding values_env name = true ->
     is_comment name = false /\ Env.has_binding available name = true) ->
  let outcome :=
    values_from_json decl_type type_str any_of_str from_json
      (values_to_json (json_of_value value_json) values_env "")
      available None "" in
  ((forall name v ty,
      Env.resolve values_env name = Some v ->
      Env.resolve available name = Some ty ->
      exists v', from_json (declared_type decl_type ty) (value_json v) = Ok v') ->
   exists ans,
     outcome = Ok ans /\
     (forall name,
        Env.has_binding ans name = Env.has_binding values_env name) /\
     map fst ans = rev (Env.names values_env)) /\
  (forall ans,
     outcome = Ok ans ->
     forall name, Env.has_binding ans name = Env.has_binding values_env name) /\
  (forall e,
     outcome = Raise e ->
     exists name v ty,
       Env.resolve values_env name = Some v /\
       Env.resolve available name = Some ty /\
       from_json (declared_type decl_type ty) (value_json v) = Raise e).
Proof.
  intros Hnames outcome.
  set (d := values_to_json (json_of_value value_json) values_env "").
  assert (Hkeys : Dict.keys d = Env.names values_env)
    by apply keys_values_to_json_bare.
  assert (Hloop : outcome =
            bind_keys decl_type from_json d available ""
              (Env.names values_env) (Env.empty Value)).
  { unfold outcome, values_from_json. fold d. rewrite Hkeys.
    change (normalize_namespace "") with "".
    now destruct (bind_keys decl_type from_json d available ""
                    (Env.names values_env) (Env.empty Value)). }
  assert (Hkey : forall name,
            In name (Env.names values_env) ->
            is_comment name = false /\
            lookup_name available "" name = name /\
            exists v ty,
              Env.resolve values_env name = Some v /\
              Env.resolve available name = Some ty /\
              Dict.get d name = Some (value_json v)).
  { intros name Hin. apply in_names in Hin.
    destruct (Hnames name Hin) as [Hc Hav]. split; [exact Hc|].
    split; [unfold lookup_name; now apply simplify_key_available|].
    apply has_binding_resolve in Hin as [v Hv].
    apply has_binding_resolve in Hav as [ty Hty].
    exists v, ty. repeat split; try assumption.
    unfold d. rewrite get_values_to_json_bare, Hv. reflexivity. }
  assert (Hsame : forall ans,
            outcome = Ok ans ->
            map fst ans = rev (Env.names values_env)).
  { intros ans Hok. rewrite Hloop in Hok.
    rewrite (bind_keys_names _ _ _ _ _ Hok). simpl. rewrite app_nil_r.
    f_equal.
    assert (Hall : forall name, In name (Env.names values_env) ->
              is_comment name = false /\ lookup_name available "" name = name)
      by (intros n Hn; destruct (Hkey n Hn) as (? & ? & _); auto).
    revert Hall. generalize (Env.names values_env) as l.
    induction l as [|n l IH]; intros Hall; simpl; [reflexivity|].
    destruct (Hall n (or_introl eq_refl)) as [-> Hl]. simpl.
    rewrite Hl. f_equal. apply IH. intros m Hm. apply Hall. now right. }
  assert (Hbound : forall ans,
            outcome = Ok ans ->
            forall name,
              Env.has_binding ans name = Env.has_binding values_env name).
  { intros ans Hok name. apply eq_true_iff_eq.
    rewrite has_binding_in, (Hsame ans Hok), <- in_rev. apply in_names. }
  split; [|split].
  - intros Hconv.
    destruct (bind_keys_all_ok d available "" (Env.names values_env)
                (Env.empty Value)) as [ans Hans].
    { intros k Hin. right.
      destruct (Hkey k Hin) as (_ & Hl & v & ty & Hv & Hty & Hj).
      destruct (Hconv k v ty Hv Hty) as [v' Hv'].
      exists ty, (value_json v), v'. rewrite Hl. auto. }
    rewrite <- Hloop in Hans. exists ans. auto.
  - exact Hbound.
  - intros e He. rewrite Hloop in He.
    destruct (bind_keys_known d available "" (Env.empty Value)
                (keys:=Env.names values_env))
      as [[ans H]|(k & ty & j & e' & Hin & _ & Hty & Hj & Hraise & H)].
    + rewrite Hkeys. apply incl_refl.
    + intros k Hin. right. destruct (Hkey k Hin) as (_ & Hl & _).
      unfold known. rewrite Hl. apply in_names in Hin.
      now apply Hnames.
    + congruence.
    + destruct (Hkey k Hin) as (_ & Hl & v & ty' & Hv & Hty' & Hj').
      rewrite Hl in Hty. exists k, v, ty. repeat split; try assumption.
      assert (j = value_json v) by congruence. subst j. congruence.
Qed.

End FromJsonFacts.

(** ** Further properties of values_from_json and values_to_json *)

Section FromJsonMore.
Variables Ty Decl Value Any : Type.
Variable decl_type : Decl -> Ty.
Variable type_str : Ty -> string.
Variable any_of_str : string -> Any.
Variable value_json : Value -> Any.
Variable from_json : Ty -> Any -> result Value.

Implicit Types (values_json : Dict.t Any) (ans : Env.Bindings Value).
Implicit Types (available : Env.Bindings (declared Ty Decl)).
Implicit Types (key namespace : string).

Lemma check_required_ok required ans ans' :
  check_required decl_type type_str any_of_str required ans = Ok ans' ->
  ans' = ans.
Proof.
  unfold check_required. destruct required as [r|]; [|congruence].
  destruct (Env.nonempty r); [|congruence].
  destruct (Env.nonempty (Env.subtract r ans)); congruence.
Qed.

Lemma values_from_json_none values_json available namespace :
  values_from_json decl_type type_str any_of_str from_json
    values_json available None namespace =
  bind_keys decl_type from_json values_json available
    (normalize_namespace namespace) (Dict.keys values_json) (Env.empty Value).
Proof.
  unfold values_from_json.
  now destruct (bind_keys decl_type from_json values_json available
                  (normalize_namespace namespace) (Dict.keys values_json)
                  (Env.empty Value)).
Qed.

Lemma values_from_json_ok_loop values_json available required namespace ans :
  values_from_json decl_type type_str any_of_str from_json
    values_json available required namespace = Ok ans ->
  bind_keys decl_type from_json values_json available
    (normalize_namespace namespace) (Dict.keys values_json) (Env.empty Value)
  = Ok ans.
Proof.
  unfold values_from_json.
  destruct (bind_keys decl_type from_json values_json available
              (normalize_namespace namespace) (Dict.keys values_json)
              (Env.empty Value)) as [ans1|e]; simpl; [|discriminate].
  intros H. apply check_required_ok in H. now subst.
Qed.

Lemma bind_keys_all_comments values_json available namespace keys ans :
  (forall k, In k keys -> is_comment k = true) ->
  bind_keys decl_type from_json values_json available namespace keys ans
  = Ok ans.
Proof.
  induction keys as [|k keys IH]; intros H; simpl; [reflexivity|].
  rewrite bind_key_comment by (apply H; now left). simpl.
  apply IH. intros k' Hk'. apply H. now right.
Qed.

(** When the loop goes through, every key that is not a comment was known
    and its value was converted. *)
Lemma bind_keys_ok_inv values_json available namespace keys ans ans' :
  bind_keys decl_type from_json values_json available namespace keys ans
  = Ok ans' ->
  forall key, In key keys -> is_comment key = false ->
    exists ty j v,
      Env.resolve available (lookup_name available namespace key) = Some ty /\
      Dict.get values_json key = Some j /\
      from_json (declared_type decl_type ty) j = Ok v.
Proof.
  revert ans. induction keys as [|k keys IH]; intros ans H key Hin Hc;
    [destruct Hin|].
  simpl in H.
  destruct (bind_key decl_type from_json values_json available namespace
              ans k) as [ans1|e] eqn:Hk; simpl in H; [|discriminate].
  destruct Hin as [->|Hin]; [|exact (IH _ H key Hin Hc)].
  apply bind_key_ok_inv in Hk
    as [[Hc' _]|(_ & ty & j & v & Hty & Hj & Hv & _)]; [congruence|].
  now exists ty, j, v.
Qed.

(** Where the bindings built by the loop come from. *)
Lemma bind_keys_bindings values_json available namespace keys ans ans' :
  bind_keys decl_type from_json values_json available namespace keys ans
  = Ok ans' ->
  forall name v, In (name, v) ans' ->
    In (name, v) ans \/
    exists key ty j,
      In key keys /\ is_comment key = false /\
      lookup_name available namespace key = name /\
      Env.resolve available name = Some ty /\
      Dict.get values_json key = Some j /\
      from_json (declared_type decl_type ty) j = Ok v.
Proof.
  revert ans. induction keys as [|k keys IH]; intros ans H name v Hin.
  - simpl in H. injection H as <-. now left.
  - simpl in H.
    destruct (bind_key decl_type from_json values_json available namespace
                ans k) as [ans1|e] eqn:Hk; simpl in H; [|discriminate].
    destruct (IH _ H name v Hin) as [Hold|(key & ty & j & Hkey & Hrest)].
    + apply bind_key_ok_inv in Hk
        as [[_ ->]|(Hc & ty & j & v' & Hty & Hj & Hv & ->)]; [now left|].
      destruct Hold as [E|Hold]; [|now left].
      injection E as <- <-. right. exists k, ty, j.
      repeat split; auto. now left.
    + right. exists key, ty, j. split; [now right | exact Hrest].
Qed.

(** The loop leaves alone the names that none of its keys is looked up
    under. *)
Lemma bind_keys_resolve_other values_json available namespace keys ans ans'
    name :
  bind_keys decl_type from_json values_json available namespace keys ans
  = Ok ans' ->
  (forall k, In k keys -> is_comment k = false ->
     lookup_name available namespace k <> name) ->
  Env.resolve ans' name = Env.resolve ans name.
Proof.
  revert ans. induction keys as [|k keys IH]; intros ans H Hother.
  - simpl in H. now injection H as <-.
  - simpl in H.
    destruct (bind_key decl_type from_json values_json available namespace
                ans k) as [ans1|e] eqn:Hk; simpl in H; [|discriminate].
    rewrite (IH _ H) by (intros k' Hk'; apply Hother; now right).
    apply bind_key_ok_inv in Hk
      as [[_ ->]|(Hc & ty & j & v' & _ & _ & _ & ->)]; [reflexivity|].
    simpl. pose proof (Hother k (or_introl eq_refl) Hc) as Hne.
    now destruct (String.eqb_spec (lookup_name available namespace k) name).
Qed.

(** X1: without required names, [values_from_json] returns bindings exactly
    when every key of the dict that is not a comment names an available
    declaration (once stripped and simplified) and [Value.from_json] accepts
    its value at the declared type. *)
Theorem values_from_json_accepts values_json available namespace :
  (exists ans,
     values_from_json decl_type type_str any_of_str from_json
       values_json available None namespace = Ok ans) <->
  (forall key,
     In key (Dict.keys values_json) -> is_comment key = false ->
     exists ty j v,
       Env.resolve available
         (lookup_name available (normalize_namespace namespace) key)
       = Some ty /\
       Dict.get values_json key = Some j /\
       from_json (declared_type decl_type ty) j = Ok v).
Proof.
  rewrite values_from_json_none. split.
  - intros [ans H]. exact (bind_keys_ok_inv _ _ _ _ _ H).
  - intros H. apply bind_keys_all_ok. intros k Hin.
    destruct (is_comment k) eqn:Hc; [now left | right; auto].
Qed.

(** X2: the bindings that [values_from_json] returns have one entry per key
    of the dict that is not a comment, under the name the key is looked up
    with, the entry of the last key first. *)
Theorem values_from_json_binding_names values_json available required
    namespace ans :
  values_from_json decl_type type_str any_of_str from_json
    values_json available required namespace = Ok ans ->
  map fst ans =
  rev (map (lookup_name available (normalize_namespace namespace))
         (filter (fun k => negb (is_comment k)) (Dict.keys values_json))) /\
  List.length ans =
  List.length (filter (fun k => negb (is_comment k)) (Dict.keys values_json)).
Proof.
  intros H. apply values_from_json_ok_loop in H.
  pose proof H as Hn. apply bind_keys_names in Hn.
  simpl in Hn. rewrite app_nil_r in Hn. split; [exact Hn|].
  rewrite <- (length_map fst ans), Hn, length_rev, length_map. reflexivity.
Qed.

(** X3: every binding that [values_from_json] returns comes from a key of
    the dict that is not a comment: its name is an available name, the one the
    key is looked up with, and its value is what [Value.from_json] made of the
    key's value at the type declared for that name. *)
Theorem values_from_json_sound values_json available required namespace ans :
  values_from_json decl_type type_str any_of_str from_json
    values_json available required namespace = Ok ans ->
  forall name v, In (name, v) ans ->
    exists key ty j,
      In key (Dict.keys values_json) /\ is_comment key = false /\
      lookup_name available (normalize_namespace namespace) key = name /\
      Env.resolve available name = Some ty /\
      Dict.get values_json key = Some j /\
      from_json (declared_type decl_type ty) j = Ok v.
Proof.
  intros H name v Hin. apply values_from_json_ok_loop in H.
  destruct (bind_keys_bindings _ _ _ _ _ H name v Hin) as [[]|Hkey].
  exact Hkey.
Qed.

(** X4: the required names only add a check: [values_from_json] returns
    bindings under [required] exactly when it returns the same bindings
    without [required] and every name bound in [required] is bound in them. *)
Theorem required_names_only_add_a_check values_json available
    (required : Env.Bindings (declared Ty Decl)) namespace ans :
  values_from_json decl_type type_str any_of_str from_json
    values_json available (Some required) namespace = Ok ans <->
  values_from_json decl_type type_str any_of_str from_json
    values_json available None namespace = Ok ans /\
  (forall name,
     Env.has_binding required name = true ->
     Env.has_binding ans name = true).
Proof.
  rewrite values_from_json_none. unfold values_from_json.
  destruct (bind_keys decl_type from_json values_json available
              (normalize_namespace namespace) (Dict.keys values_json)
              (Env.empty Value)) as [ans1|e]; cbn [rbind];
    [|split; [discriminate | now intros [H _]]].
  rewrite check_required_missing. cbv zeta.
  destruct (filter (fun n => negb (Env.has_binding ans1 n))
              (Env.names required)) as [|m l] eqn:E.
  - split.
    + intros H. injection H as <-. split; [reflexivity|].
      intros name Hreq. destruct (Env.has_binding ans1 name) eqn:Hb;
        [reflexivity|].
      assert (Hin : In name (filter (fun n => negb (Env.has_binding ans1 n))
                               (Env.names required))).
      { apply filter_In. split; [now apply in_names | now rewrite Hb]. }
      rewrite E in Hin. destruct Hin.
    + now intros [H _].
  - split; [discriminate|]. intros [H Hall]. injection H as ->.
    assert (Hin : In m (filter (fun n => negb (Env.has_binding ans n))
                          (Env.names required))) by (rewrite E; now left).
    apply filter_In in Hin as [Hreq Hb]. apply in_names in Hreq.
    rewrite (Hall m Hreq) in Hb. discriminate.
Qed.

(** X5: on a dict whose keys are all comments, and so on the empty dict,
    [values_from_json] binds nothing: it returns the empty bindings when
    nothing is required, and otherwise raises the InputError that lists every
    required name, in the iteration order of [required]. *)
Theorem values_from_json_only_comments values_json available required
    namespace :
  (forall key, In key (Dict.keys values_json) -> is_comment key = true) ->
  values_from_json decl_type type_str any_of_str from_json
    values_json available required namespace =
  match required with
  | None => Ok (Env.empty Value)
  | Some r =>
      match Env.names r with
      | [] => Ok (Env.empty Value)
      | names => Raise (InputError ("missing required inputs/outputs: "
                                     ++ Str.join ", " names))
      end
  end.
Proof.
  intros H. unfold values_from_json.
  rewrite bind_keys_all_comments by exact H. cbn [rbind].
  destruct required as [r|]; [|reflexivity].
  rewrite check_required_missing. cbv zeta.
  assert (E : filter (fun n => negb (Env.has_binding (Env.empty Value) n))
                (Env.names r) = Env.names r).
  { induction (Env.names r) as [|n l IH]; [reflexivity|].
    cbn [filter]. rewrite IH. reflexivity. }
  rewrite E. now destruct (Env.names r).
Qed.

(** The last of the keys looked up under a name decides what the name is
    bound to. *)
Lemma bind_keys_last_key values_json available namespace pre key post
    ans0 ans :
  bind_keys decl_type from_json values_json available namespace
    (pre ++ key :: post)%list ans0 = Ok ans ->
  is_comment key = false ->
  (forall k, In k post -> is_comment k = false ->
     lookup_name available namespace k <> lookup_name available namespace key) ->
  exists ty j v,
    Env.resolve available (lookup_name available namespace key) = Some ty /\
    Dict.get values_json key = Some j /\
    from_json (declared_type decl_type ty) j = Ok v /\
    Env.resolve ans (lookup_name available namespace key) = Some v.
Proof.
  intros H Hc Hpost. rewrite bind_keys_app in H.
  destruct (bind_keys decl_type from_json values_json available namespace
              pre ans0) as [a1|e]; cbn [rbind bind_keys] in H; [|discriminate].
  destruct (bind_key decl_type from_json values_json available namespace
              a1 key) as [a2|e] eqn:Hk; cbn [rbind] in H; [|discriminate].
  apply bind_key_ok_inv in Hk
    as [[Hc' _]|(_ & ty & j & v & Hty & Hj & Hv & ->)]; [congruence|].
  exists ty, j, v. repeat split; try assumption.
  rewrite (bind_keys_resolve_other _ _ _ _ _ H Hpost).
  simpl. now rewrite String.eqb_refl.
Qed.

(** X6: when several keys of the dict are looked up under the same name
    (a key with the namespace and the same key without it, or a nested key and
    its flattened form), the name is bound, for lookup, to the converted value
    of the last of them in the order of the dict. *)
Theorem values_from_json_last_key_wins values_json available required
    namespace ans pre key post :
  values_from_json decl_type type_str any_of_str from_json
    values_json available required namespace = Ok ans ->
  Dict.keys values_json = (pre ++ key :: post)%list ->
  is_comment key = false ->
  (forall k, In k post -> is_comment k = false ->
     lookup_name available (normalize_namespace namespace) k <>
     lookup_name available (normalize_namespace namespace) key) ->
  exists ty j v,
    Env.resolve available
      (lookup_name available (normalize_namespace namespace) key) = Some ty /\
    Dict.get values_json key = Some j /\
    from_json (declared_type decl_type ty) j = Ok v /\
    Env.resolve ans
      (lookup_name available (normalize_namespace namespace) key) = Some v.
Proof.
  intros H Hkeys Hc Hpost. apply values_from_json_ok_loop in H.
  rewrite Hkeys in H. exact (bind_keys_last_key _ _ _ _ _ _ _ H Hc Hpost).
Qed.

(** X7: an exception raised by [Value.from_json] is the outcome of
    [values_from_json]: when the keys before [key] are comments or known keys
    whose values convert, and [Value.from_json] raises [e] on the value of the
    known key [key], the call raises [e], whatever follows in the dict and
    whatever is required. *)
Theorem values_from_json_conversion_error values_json available required
    namespace pre key post ty j e :
  Dict.keys values_json = (pre ++ key :: post)%list ->
  (forall k, In k pre ->
     is_comment k = true \/
     exists ty' j' v',
       Env.resolve available
         (lookup_name available (normalize_namespace namespace) k)
       = Some ty' /\
       Dict.get values_json k = Some j' /\
       from_json (declared_type decl_type ty') j' = Ok v') ->
  is_comment key = false ->
  Env.resolve available
    (lookup_name available (normalize_namespace namespace) key) = Some ty ->
  Dict.get values_json key = Some j ->
  from_json (declared_type decl_type ty) j = Raise e ->
  values_from_json decl_type type_str any_of_str from_json
    values_json available required namespace = Raise e.
Proof.
  intros Hkeys Hpre Hc Hty Hj He. unfold values_from_json.
  rewrite Hkeys, bind_keys_app.
  destruct (bind_keys_all_ok decl_type from_json values_json available
              (normalize_namespace namespace) pre (Env.empty Value) Hpre)
    as [a1 Ha1].
  rewrite Ha1. cbn [rbind bind_keys].
  rewrite (bind_key_known decl_type from_json values_json available
             (normalize_namespace namespace) a1 key Hc Hty Hj).
  now rewrite He.
Qed.

Lemma strip_namespace_app namespace name :
  strip_namespace namespace (namespace ++ name) = name.
Proof.
  unfold strip_namespace, Str.startswith.
  destruct namespace as [|c ns]; [reflexivity|].
  rewrite prefix_app. cbn [Str.nonempty andb]. apply slice_from_app.
Qed.

(** X8: the namespace prefix is optional, key by key: for an available name
    that does not itself start with the prefix, and when neither the name nor
    the key with the prefix starts with '#', the key with the prefix and the
    key without it are read alike, by the turn of the loop and by
    [values_from_json] on the one-entry dicts. *)
Theorem values_from_json_prefix_optional available required namespace name j :
  Env.has_binding available name = true ->
  is_comment name = false ->
  is_comment (normalize_namespace namespace ++ name) = false ->
  Str.startswith name (normalize_namespace namespace) = false
  \/ namespace = "" ->
  (forall values_json values_json' ans,
     Dict.get values_json (normalize_namespace namespace ++ name) = Some j ->
     Dict.get values_json' name = Some j ->
     bind_key decl_type from_json values_json available
       (normalize_namespace namespace) ans
       (normalize_namespace namespace ++ name) =
     bind_key decl_type from_json values_json' available
       (normalize_namespace namespace) ans name) /\
  values_from_json decl_type type_str any_of_str from_json
    [(normalize_namespace namespace ++ name, j)] available required namespace =
  values_from_json decl_type type_str any_of_str from_json
    [(name, j)] available required namespace.
Proof.
  intros Hav Hc Hc' Hns.
  set (N := normalize_namespace namespace) in *.
  assert (H1 : lookup_name available N (N ++ name) = name).
  { unfold lookup_name. rewrite strip_namespace_app.
    now apply simplify_key_available. }
  assert (H2 : lookup_name available N name = name)
    by (apply lookup_name_verbatim; assumption).
  apply has_binding_resolve in Hav as [ty Hty].
  assert (Hstep : forall values_json values_json' ans,
            Dict.get values_json (N ++ name) = Some j ->
            Dict.get values_json' name = Some j ->
            bind_key decl_type from_json values_json available N ans
              (N ++ name) =
            bind_key decl_type from_json values_json' available N ans name).
  { intros d d' ans Hd Hd'.
    rewrite (bind_key_known decl_type from_json d available N ans
               (N ++ name) (ty:=ty) (j:=j)) by (rewrite ?H1; assumption).
    rewrite (bind_key_known decl_type from_json d' available N ans
               name (ty:=ty) (j:=j)) by (rewrite ?H2; assumption).
    now rewrite H1, H2. }
  split; [exact Hstep|].
  unfold values_from_json. fold N. cbn [Dict.keys map fst bind_keys].
  rewrite (Hstep [(N ++ name, j)] [(name, j)] (Env.empty Value)).
  - reflexivity.
  - simpl. now rewrite String.eqb_refl.
  - simpl. now rewrite String.eqb_refl.
Qed.

Lemma check_required_all_bound (required : Env.Bindings (declared Ty Decl))
    ans :
  (forall name,
     Env.has_binding required name = true ->
     Env.has_binding ans name = true) ->
  check_required decl_type type_str any_of_str (Some required) ans = Ok ans.
Proof.
  intros H. rewrite check_required_missing. cbv zeta.
  destruct (filter (fun n => negb (Env.has_binding ans n))
              (Env.names required)) as [|m l] eqn:E; [reflexivity|].
  assert (Hin : In m (filter (fun n => negb (Env.has_binding ans n))
                        (Env.names required))) by (rewrite E; now left).
  apply filter_In in Hin as [Hreq Hb]. apply in_names in Hreq.
  rewrite (H m Hreq) in Hb. discriminate.
Qed.

(** The loop of [values_from_json] on the dict that [values_to_json] wrote
    for [values_env] under the same namespace. *)
Lemma written_dict_read_back (values_env : Env.Bindings Value) available
    namespace :
  (forall name,
     Env.has_binding values_env name = true ->
     is_comment (normalize_namespace namespace ++ name) = false /\
     Env.has_binding available name = true) ->
  (forall name v ty,
     Env.resolve values_env name = Some v ->
     Env.resolve available name = Some ty ->
     exists v', from_json (declared_type decl_type ty) (value_json v) = Ok v') ->
  exists ans,
    bind_keys decl_type from_json
      (values_to_json (json_of_value value_json) values_env namespace)
      available (normalize_namespace namespace)
      (Dict.keys
         (values_to_json (json_of_value value_json) values_env namespace))
      (Env.empty Value) = Ok ans /\
    map fst ans = rev (Env.names values_env) /\
    forall name v ty,
      Env.resolve values_env name = Some v ->
      Env.resolve available name = Some ty ->
      exists v',
        from_json (declared_type decl_type ty) (value_json v) = Ok v' /\
        Env.resolve ans name = Some v'.
Proof.
  intros Hnames Hconv.
  set (N := normalize_namespace namespace).
  set (d := values_to_json (json_of_value value_json) values_env namespace).
  assert (Hkeys : Dict.keys d = map (fun n => N ++ n) (Env.names values_env))
    by apply keys_values_to_json.
  assert (Hkey : forall name,
            In name (Env.names values_env) ->
            is_comment (N ++ name) = false /\
            lookup_name available N (N ++ name) = name /\
            exists v ty,
              Env.resolve values_env name = Some v /\
              Env.resolve available name = Some ty /\
              Dict.get d (N ++ name) = Some (value_json v)).
  { intros name Hin. apply in_names in Hin.
    destruct (Hnames name Hin) as [Hc Hav]. split; [exact Hc|].
    split.
    - unfold lookup_name. rewrite strip_namespace_app.
      now apply simplify_key_available.
    - apply has_binding_resolve in Hin as [v Hv].
      apply has_binding_resolve in Hav as [ty Hty].
      exists v, ty. repeat split; try assumption.
      unfold d, N. rewrite get_values_to_json, Hv. reflexivity. }
  rewrite Hkeys.
  destruct (bind_keys_all_ok decl_type from_json d available N
              (map (fun n => N ++ n) (Env.names values_env))
              (Env.empty Value)) as [ans Hans].
  { intros k Hin. right. apply in_map_iff in Hin as (name & <- & Hin).
    destruct (Hkey name Hin) as (_ & Hl & v & ty & Hv & Hty & Hj).
    destruct (Hconv name v ty Hv Hty) as [v' Hv'].
    exists ty, (value_json v), v'. rewrite Hl. auto. }
  exists ans. split; [exact Hans|]. split.
  - pose proof Hans as Hn. apply bind_keys_names in Hn.
    simpl in Hn. rewrite app_nil_r in Hn. rewrite Hn. f_equal.
    assert (Hall : forall name, In name (Env.names values_env) ->
              is_comment (N ++ name) = false /\
              lookup_name available N (N ++ name) = name)
      by (intros n Hn'; destruct (Hkey n Hn') as (? & ? & _); auto).
    revert Hall. generalize (Env.names values_env) as l.
    induction l as [|n l IH]; intros Hall; simpl; [reflexivity|].
    destruct (Hall n (or_introl eq_refl)) as [-> Hl]. simpl.
    rewrite Hl. f_equal. apply IH. intros m Hm. apply Hall. now right.
  - intros name v ty Hv Hty.
    assert (Hin : In name (Env.names values_env)).
    { apply in_names, has_binding_resolve. now exists v. }
    pose proof (names_nodup values_env) as Hnd.
    apply in_split in Hin as (l1 & l2 & Hsplit).
    rewrite Hsplit in Hans, Hnd, Hkey.
    rewrite map_app in Hans. cbn [map] in Hans.
    destruct (Hkey name) as (Hc & Hl & v0 & ty0 & Hv0 & Hty0 & Hj);
      [apply in_or_app; right; now left|].
    destruct (bind_keys_last_key _ _ _ _ _ _ _ Hans Hc)
      as (ty1 & j1 & v1 & Hty1 & Hj1 & Hv1 & Hres).
    + intros k Hk _. apply in_map_iff in Hk as (m & <- & Hm).
      destruct (Hkey m) as (_ & Hlm & _);
        [apply in_or_app; right; now right|].
      rewrite Hl, Hlm. intros ->.
      apply NoDup_remove_2 in Hnd. apply Hnd. apply in_or_app. now right.
    + rewrite Hl in Hty1, Hres. exists v1. split; [|exact Hres].
      assert (ty1 = ty) by congruence. assert (v0 = v) by congruence.
      subst. congruence.
Qed.

(** X9: reading back, with the same namespace and nothing required, the
    dict that [values_to_json] wrote for bindings of values gives bindings
    with the same names, each bound to what [Value.from_json] makes of the
    JSON of the original value at the type declared for the name; provided no
    key written starts with '#', every name is available and
    [Value.from_json] accepts each of these values. *)
Theorem values_read_back (values_env : Env.Bindings Value) available
    namespace :
  (forall name,
     Env.has_binding values_env name = true ->
     is_comment (normalize_namespace namespace ++ name) = false /\
     Env.has_binding available name = true) ->
  (forall name v ty,
     Env.resolve values_env name = Some v ->
     Env.resolve available name = Some ty ->
     exists v', from_json (declared_type decl_type ty) (value_json v) = Ok v') ->
  exists ans,
    values_from_json decl_type type_str any_of_str from_json
      (values_to_json (json_of_value value_json) values_env namespace)
      available None namespace = Ok ans /\
    map fst ans = rev (Env.names values_env) /\
    forall name v ty,
      Env.resolve values_env name = Some v ->
      Env.resolve available name = Some ty ->
      exists v',
        from_json (declared_type decl_type ty) (value_json v) = Ok v' /\
        Env.resolve ans name = Some v'.
Proof.
  intros Hnames Hconv. rewrite values_from_json_none.
  exact (written_dict_read_back values_env available namespace Hnames Hconv).
Qed.

(** X10: round trip of values. When no key that [values_to_json] writes for
    the bindings starts with '#', every name of the bindings is available, and
    [Value.from_json] gives back each value from its JSON at the type declared
    for its name, reading back the dict that [values_to_json] wrote, with the
    same namespace and with any required names that the bindings have, returns
    bindings in which every name resolves as in the original bindings. *)
Theorem round_trip_of_values (values_env : Env.Bindings Value) available
    required namespace :
  (forall name,
     Env.has_binding values_env name = true ->
     is_comment (normalize_namespace namespace ++ name) = false /\
     Env.has_binding available name = true) ->
  (forall name v ty,
     Env.resolve values_env name = Some v ->
     Env.resolve available name = Some ty ->
     from_json (declared_type decl_type ty) (value_json v) = Ok v) ->
  (forall r name,
     required = Some r -> Env.has_binding r name = true ->
     Env.has_binding values_env name = true) ->
  exists ans,
    values_from_json decl_type type_str any_of_str from_json
      (values_to_json (json_of_value value_json) values_env namespace)
      available required namespace = Ok ans /\
    forall name, Env.resolve ans name = Env.resolve values_env name.
Proof.
  intros Hnames Hconv Hreq.
  destruct (written_dict_read_back values_env available namespace Hnames)
    as (ans & Hans & Hfst & Hval).
  { intros name v ty Hv Hty. exists v. now apply (Hconv name). }
  assert (Hsame : forall name,
            Env.resolve ans name = Env.resolve values_env name).
  { intros name. destruct (Env.resolve values_env name) as [v|] eqn:Hv.
    - assert (Hb : Env.has_binding values_env name = true)
        by (apply has_binding_resolve; now exists v).
      destruct (Hnames name Hb) as [_ Hav].
      apply has_binding_resolve in Hav as [ty Hty].
      destruct (Hval name v ty Hv Hty) as (v' & Hv' & Hres).
      rewrite (Hconv name v ty Hv Hty) in Hv'. congruence.
    - destruct (Env.resolve ans name) as [w|] eqn:Hw; [|reflexivity].
      assert (Hin : In name (map fst ans))
        by (apply has_binding_in, has_binding_resolve; now exists w).
      rewrite Hfst in Hin. apply in_rev, in_names in Hin.
      apply has_binding_resolve in Hin as [v Hv']. congruence. }
  exists ans. split; [|exact Hsame].
  unfold values_from_json. rewrite Hans. cbn [rbind].
  destruct required as [r|]; [|reflexivity].
  apply check_required_all_bound. intros name Hr.
  specialize (Hreq r name eq_refl Hr).
  apply has_binding_resolve in Hreq as [v Hv].
  apply has_binding_resolve. exists v. now rewrite Hsame.
Qed.

Lemma normalize_namespace_comment namespace name :
  Str.startswith namespace "#" = true ->
  is_comment (normalize_namespace namespace ++ name) = true.
Proof.
  unfold Str.startswith. intros H. apply prefix_inv in H as [r ->].
  unfold normalize_namespace, is_comment, Str.startswith.
  destruct (Str.nonempty ("#" ++ r) && negb (Str.endswith ("#" ++ r) "."));
    rewrite !append_assoc; apply prefix_app.
Qed.

(** X11: a namespace that starts with '#' turns every key that
    [values_to_json] writes into a comment: [values_from_json] binds nothing
    from such a dict, whatever the namespace and the declarations it is given;
    it returns the empty bindings when nothing is required. *)
Theorem values_to_json_comment_namespace (V : Type) (json_of : V -> Any)
    (values_env : Env.Bindings V) available namespace namespace' :
  Str.startswith namespace "#" = true ->
  (forall key,
     In key (Dict.keys (values_to_json json_of values_env namespace)) ->
     is_comment key = true) /\
  values_from_json decl_type type_str any_of_str from_json
    (values_to_json json_of values_env namespace) available None namespace'
  = Ok (Env.empty Value).
Proof.
  intros H.
  assert (Hall : forall key,
            In key (Dict.keys (values_to_json json_of values_env namespace)) ->
            is_comment key = true).
  { intros key Hin. rewrite keys_values_to_json in Hin.
    apply in_map_iff in Hin as (name & <- & _).
    now apply normalize_namespace_comment. }
  split; [exact Hall|].
  rewrite values_from_json_none. now apply bind_keys_all_comments.
Qed.

End FromJsonMore.

(** X12: the dict that [values_to_json] returns has one key per name of the
    bindings, the namespace prefix followed by the name, without repetition;
    the key of a name holds the JSON of the value the name resolves to, so
    that a binding shadowed by a later one is not written; and no other key is
    in the dict. *)
Theorem values_to_json_entries (Any V : Type) (json_of : V -> Any)
    (values_env : Env.Bindings V) (namespace : string) :
  NoDup (Dict.keys (values_to_json json_of values_env namespace)) /\
  List.length (values_to_json json_of values_env namespace) =
  List.length (Env.names values_env) /\
  (forall name,
     Dict.get (values_to_json json_of values_env namespace)
       (normalize_namespace namespace ++ name) =
     option_map json_of (Env.resolve values_env name)) /\
  (forall key,
     In key (Dict.keys (values_to_json json_of values_env namespace)) <->
     exists name,
       key = normalize_namespace namespace ++ name /\
       Env.has_binding values_env name = true) /\
  (forall key,
     (forall name, key <> normalize_namespace namespace ++ name) ->
     Dict.get (values_to_json json_of values_env namespace) key = None).
Proof.
  assert (Hkeys : forall key,
            In key (Dict.keys (values_to_json json_of values_env namespace))
            <-> exists name,
                  key = normalize_namespace namespace ++ name /\
                  Env.has_binding values_env name = true).
  { intros key. rewrite keys_values_to_json, in_map_iff. split.
    - intros (name & <- & Hin). exists name. split; [reflexivity|].
      now apply in_names.
    - intros (name & -> & Hb). exists name. split; [reflexivity|].
      now apply in_names. }
  split; [apply values_to_json_wf|]. split.
  - rewrite <- (length_map fst). fold (Dict.keys
      (values_to_json json_of values_env namespace)).
    now rewrite keys_values_to_json, length_map.
  - split; [intros name; apply get_values_to_json|].
    split; [exact Hkeys|].
    intros key Hkey. apply dict_get_none. intros Hin.
    apply Hkeys in Hin as (name & -> & _). now apply (Hkey name).
Qed.

Section FromJsonOutcomes.
Variables Ty Decl Value Any : Type.
Variable decl_type : Decl -> Ty.
Variable type_str : Ty -> string.
Variable any_of_str : string -> Any.
Variable from_json : Ty -> Any -> result Value.

Implicit Types (values_json : Dict.t Any) (ans : Env.Bindings Value).
Implicit Types (available : Env.Bindings (declared Ty Decl)).

(** X13: on bindings of declarations or of types, [values_to_json] writes
    under each key the string of the type: a declaration and its bare type are
    written alike. *)
Theorem values_to_json_type_strings
    (values_env : Env.Bindings (declared Ty Decl)) (namespace name : string) :
  Dict.get (values_to_json (json_of_declared decl_type type_str any_of_str)
              values_env namespace)
    (normalize_namespace namespace ++ name) =
  option_map (fun d => any_of_str (type_str (declared_type decl_type d)))
    (Env.resolve values_env name).
Proof.
  rewrite get_values_to_json.
  destruct (Env.resolve values_env name) as [[d|ty]|]; reflexivity.
Qed.

(** Why the loop stops. *)
Lemma bind_keys_raise_inv values_json available namespace keys ans e :
  incl keys (Dict.keys values_json) ->
  bind_keys decl_type from_json values_json available namespace keys ans
  = Raise e ->
  exists key,
    In key keys /\ is_comment key = false /\
    ((known available namespace key = false /\
      e = InputError ("unknown input/output: " ++ key)) \/
     (exists ty j,
        Env.resolve available (lookup_name available namespace key) = Some ty /\
        Dict.get values_json key = Some j /\
        from_json (declared_type decl_type ty) j = Raise e)).
Proof.
  revert ans. induction keys as [|k keys IH]; intros ans Hin H;
    [discriminate H|].
  assert (Hin' : incl keys (Dict.keys values_json))
    by (intros x Hx; apply Hin; now right).
  simpl in H.
  destruct (bind_key decl_type from_json values_json available namespace
              ans k) as [ans1|e'] eqn:Hk; cbn [rbind] in H.
  - destruct (IH _ Hin' H) as (key & Hkey & Hrest).
    exists key. split; [now right | exact Hrest].
  - injection H as ->. exists k. split; [now left|].
    unfold bind_key in Hk.
    destruct (is_comment k) eqn:Hc; cbn [negb] in Hk; [discriminate Hk|].
    split; [reflexivity|].
    destruct (Env.resolve available (lookup_name available namespace k))
      as [ty|] eqn:Hty.
    + destruct (dict_get_in_keys values_json k (Hin k (or_introl eq_refl)))
        as [j Hj].
      rewrite Hj in Hk. right. exists ty, j.
      split; [reflexivity|]. split; [exact Hj|].
      destruct (from_json (declared_type decl_type ty) j) as [v|e2];
        [discriminate Hk|]. cbn [rbind] in Hk. now injection Hk as ->.
    + left. injection Hk as <-. split; [|reflexivity].
      unfold known, Env.has_binding. now rewrite Hty.
Qed.

(** X14: the exceptions of [values_from_json]. When the call raises, either
    some key of the dict that is not a comment names no available declaration
    and the exception is the InputError for an unknown input naming that key;
    or [Value.from_json] raised the exception on the value of a known key; or
    names are required, every key was read, and the exception is the
    InputError listing the required names that the dict did not give. In
    particular the lookups of the function itself never let a KeyError out. *)
Theorem values_from_json_raises values_json available required namespace e :
  values_from_json decl_type type_str any_of_str from_json
    values_json available required namespace = Raise e ->
  (exists key,
     In key (Dict.keys values_json) /\ is_comment key = false /\
     known available (normalize_namespace namespace) key = false /\
     e = InputError ("unknown input/output: " ++ key)) \/
  (exists key ty j,
     In key (Dict.keys values_json) /\ is_comment key = false /\
     Env.resolve available
       (lookup_name available (normalize_namespace namespace) key) = Some ty /\
     Dict.get values_json key = Some j /\
     from_json (declared_type decl_type ty) j = Raise e) \/
  (exists r ans,
     required = Some r /\
     bind_keys decl_type from_json values_json available
       (normalize_namespace namespace) (Dict.keys values_json)
       (Env.empty Value) = Ok ans /\
     filter (fun n => negb (Env.has_binding ans n)) (Env.names r) <> [] /\
     e = InputError
           ("missing required inputs/outputs: "
            ++ Str.join ", "
                 (filter (fun n => negb (Env.has_binding ans n))
                    (Env.names r)))).
Proof.
  unfold values_from_json.
  destruct (bind_keys decl_type from_json values_json available
              (normalize_namespace namespace) (Dict.keys values_json)
              (Env.empty Value)) as [ans|e'] eqn:Hloop; cbn [rbind]; intros H.
  - right. right. destruct required as [r|]; [|discriminate H].
    rewrite check_required_missing in H. cbv zeta in H.
    exists r, ans. split; [reflexivity|]. split; [reflexivity|].
    destruct (filter (fun n => negb (Env.has_binding ans n)) (Env.names r))
      as [|m l]; [discriminate H|].
    split; [discriminate|]. now injection H as <-.
  - injection H as ->.
    destruct (bind_keys_raise_inv _ _ _ _ (incl_refl _) Hloop)
      as (key & Hin & Hc & [[Hk ->]|(ty & j & Hty & Hj & He)]).
    + left. now exists key.
    + right. left. now exists key, ty, j.
Qed.

End FromJsonOutcomes.

Section FromJsonComposed.
Variables Ty Decl Value Any : Type.
Variable decl_type : Decl -> Ty.
Variable type_str : Ty -> string.
Variable any_of_str : string -> Any.
Variable value_json : Value -> Any.
Variable from_json : Ty -> Any -> result Value.

Implicit Types (values_json : Dict.t Any) (ans : Env.Bindings Value).
Implicit Types (available : Env.Bindings (declared Ty Decl)).

(** X15: writing back what was read. In the dict that [values_to_json]
    writes, under any namespace, for the bindings that [values_from_json]
    returned, the key made of that namespace and of the name a key of the
    input was looked up with holds the JSON of the converted value of the last
    input key looked up with that name. *)
Theorem values_write_back values_json available required namespace ans
    pre key post namespace' :
  values_from_json decl_type type_str any_of_str from_json
    values_json available required namespace = Ok ans ->
  Dict.keys values_json = (pre ++ key :: post)%list ->
  is_comment key = false ->
  (forall k, In k post -> is_comment k = false ->
     lookup_name available (normalize_namespace namespace) k <>
     lookup_name available (normalize_namespace namespace) key) ->
  exists ty j v,
    Env.resolve available
      (lookup_name available (normalize_namespace namespace) key) = Some ty /\
    Dict.get values_json key = Some j /\
    from_json (declared_type decl_type ty) j = Ok v /\
    Dict.get (values_to_json (json_of_value value_json) ans namespace')
      (normalize_namespace namespace'
       ++ lookup_name available (normalize_namespace namespace) key)
    = Some (value_json v).
Proof.
  intros H Hkeys Hc Hpost.
  assert (Hloop :
    bind_keys decl_type from_json values_json available
      (normalize_namespace namespace) (pre ++ key :: post)%list
      (Env.empty Value) = Ok ans).
  { rewrite <- Hkeys. revert H. unfold values_from_json.
    destruct (bind_keys decl_type from_json values_json available
                (normalize_namespace namespace) (Dict.keys values_json)
                (Env.empty Value)) as [ans1|e]; cbn [rbind]; [|discriminate].
    intros H. apply check_required_ok in H. now subst. }
  destruct (bind_keys_last_key _ _ _ _ _ _ _ _ _ Hloop Hc Hpost)
    as (ty & j & v & Hty & Hj & Hv & Hres).
  exists ty, j, v. repeat split; try assumption.
  rewrite get_values_to_json, Hres. reflexivity.
Qed.

(** X16: a key that does not start with '#' and carries the namespace
    prefix is only looked up without it. When what follows the prefix is not
    an available name and does not have three dot-separated parts,
    [values_from_json] returns no bindings for a dict with that key, and the
    turn of the loop raises the InputError for an unknown input naming the
    whole key; also when the whole key is itself the name of an available
    declaration. *)
Theorem values_from_json_prefix_stripped values_json available required
    namespace rest :
  is_comment (normalize_namespace namespace ++ rest) = false ->
  Env.has_binding available rest = false ->
  List.length (Str.split "." rest) <> 3 ->
  In (normalize_namespace namespace ++ rest) (Dict.keys values_json) ->
  (forall ans,
     bind_key decl_type from_json values_json available
       (normalize_namespace namespace) ans
       (normalize_namespace namespace ++ rest) =
     Raise (InputError ("unknown input/output: "
                         ++ (normalize_namespace namespace ++ rest)))) /\
  (forall ans,
     values_from_json decl_type type_str any_of_str from_json
       values_json available required namespace <> Ok ans).
Proof.
  intros Hc Hav Hparts Hin.
  set (N := normalize_namespace namespace) in *.
  assert (Hname : lookup_name available N (N ++ rest) = rest).
  { unfold lookup_name. rewrite strip_namespace_app.
    destruct (simplify_key_cases available rest)
      as [E|(a & b & c & Hs & _)]; [exact E|].
    rewrite Hs in Hparts. now elim Hparts. }
  assert (Hunknown : known available N (N ++ rest) = false)
    by (unfold known; now rewrite Hname).
  split.
  - intros ans. now apply bind_key_unknown.
  - intros ans H.
    assert (Hloop :
      bind_keys decl_type from_json values_json available N
        (Dict.keys values_json) (Env.empty Value) = Ok ans).
    { revert H. unfold values_from_json. fold N.
      destruct (bind_keys decl_type from_json values_json available N
                  (Dict.keys values_json) (Env.empty Value)) as [ans1|e];
        cbn [rbind]; [|discriminate].
      intros H. apply check_required_ok in H. now subst. }
    destruct (bind_keys_ok_inv _ _ _ _ _ _ _ Hloop _ Hin Hc)
      as (ty & j & v & Hty & _).
    unfold known, Env.has_binding in Hunknown. now rewrite Hty in Hunknown.
Qed.

End FromJsonComposed.

(** ** Flattening of nested call inputs *)

Section Flattening.
Variables Ty Decl Value Any : Type.
Variable decl_type : Decl -> Ty.
Variable type_str : Ty -> string.
Variable any_of_str : string -> Any.
Variable from_json : Ty -> Any -> result Value.

Implicit Types (values_json : Dict.t Any) (ans : Env.Bindings Value).
Implicit Types (available : Env.Bindings (declared Ty Decl)).

(** The loop only adds bindings. *)
Lemma bind_keys_keeps values_json available namespace keys ans ans' :
  bind_keys decl_type from_json values_json available namespace keys ans
  = Ok ans' ->
  forall b, In b ans -> In b ans'.
Proof.
  revert ans. induction keys as [|k keys IH]; intros ans H b Hb.
  - simpl in H. now injection H as <-.
  - simpl in H.
    destruct (bind_key decl_type from_json values_json available namespace
                ans k) as [ans1|e] eqn:Hk; cbn [rbind] in H; [|discriminate].
    apply (IH _ H).
    apply bind_key_ok_inv in Hk
      as [[_ ->]|(_ & ty & j & v & _ & _ & _ & ->)]; [exact Hb|].
    now right.
Qed.

(** Every key that is not a comment leaves its binding. *)
Lemma bind_keys_binds values_json available namespace keys ans ans' key :
  bind_keys decl_type from_json values_json available namespace keys ans
  = Ok ans' ->
  In key keys -> is_comment key = false ->
  exists ty j v,
    Env.resolve available (lookup_name available namespace key) = Some ty /\
    Dict.get values_json key = Some j /\
    from_json (declared_type decl_type ty) j = Ok v /\
    In (lookup_name available namespace key, v) ans'.
Proof.
  revert ans. induction keys as [|k keys IH]; intros ans H Hin Hc;
    [destruct Hin|].
  simpl in H.
  destruct (bind_key decl_type from_json values_json available namespace
              ans k) as [ans1|e] eqn:Hk; cbn [rbind] in H; [|discriminate].
  destruct Hin as [->|Hin]; [|exact (IH _ H Hin Hc)].
  apply bind_key_ok_inv in Hk
    as [[Hc' _]|(_ & ty & j & v & Hty & Hj & Hv & ->)]; [congruence|].
  exists ty, j, v. repeat split; try assumption.
  eapply bind_keys_keeps; [exact H | now left].
Qed.

(** What [values_from_json] does with a key that is not a comment and is
    looked up as [name]. *)
Lemma looked_up_key available namespace key name :
  lookup_name available (normalize_namespace namespace) key = name ->
  is_comment key = false ->
  (forall values_json required ans,
     In key (Dict.keys values_json) ->
     values_from_json decl_type type_str any_of_str from_json
       values_json available required namespace = Ok ans ->
     exists ty j v,
       Env.resolve available name = Some ty /\
       Dict.get values_json key = Some j /\
       from_json (declared_type decl_type ty) j = Ok v /\
       In (name, v) ans) /\
  (forall j,
     values_from_json decl_type type_str any_of_str from_json
       [(key, j)] available None namespace =
     match Env.resolve available name with
     | None => Raise (InputError ("unknown input/output: " ++ key))
     | Some ty =>
         v <- from_json (declared_type decl_type ty) j ;;
         Ok (Env.bind name v (Env.empty Value))
     end).
Proof.
  intros Hname Hc. split.
  - intros values_json required ans Hin H.
    apply values_from_json_ok_loop in H.
    edestruct bind_keys_binds as (ty & j & v & Hty & Hj & Hv & Hb);
      [exact H | exact Hin | exact Hc |].
    rewrite Hname in Hty, Hb. now exists ty, j, v.
  - intros j. rewrite values_from_json_none.
    cbn [Dict.keys map fst bind_keys]. unfold bind_key.
    rewrite Hc, Hname. cbn [negb].
    destruct (Env.resolve available name) as [ty|]; [|reflexivity].
    assert (Hj : Dict.get [(key, j)] key = Some j)
      by (simpl; now rewrite String.eqb_refl).
    rewrite Hj.
    now destruct (from_json (declared_type decl_type ty) j).
Qed.

(** C3 (amended): take a key and strip the namespace prefix from it. When
    the stripped key is not itself an available name and reads [a.b.c] with
    three non-empty dot-free parts, the key is looked up as [a.c]; when the
    stripped key has another number of dot-separated parts, or an empty part,
    it is looked up as it is. For a key that does not start with '#',
    [values_from_json] binds the converted value under the looked-up name:
    whenever it returns bindings for a dict that has the key, they hold that
    binding; and on the dict with this key alone it returns exactly that
    binding, or raises the InputError for an unknown input naming the key as
    written when the looked-up name is not available. *)
Theorem values_from_json_flattening available namespace key :
  (forall a b c,
     strip_namespace (normalize_namespace namespace) key
     = a ++ "." ++ b ++ "." ++ c ->
     Str.free_of "." a = true -> Str.free_of "." b = true ->
     Str.free_of "." c = true ->
     Str.nonempty a = true -> Str.nonempty b = true ->
     Str.nonempty c = true ->
     Env.has_binding available
       (strip_namespace (normalize_namespace namespace) key) = false ->
     lookup_name available (normalize_namespace namespace) key
     = a ++ "." ++ c /\
     (is_comment key = false ->
      (forall values_json required ans,
         In key (Dict.keys values_json) ->
         values_from_json decl_type type_str any_of_str from_json
           values_json available required namespace = Ok ans ->
         exists ty j v,
           Env.resolve available (a ++ "." ++ c) = Some ty /\
           Dict.get values_json key = Some j /\
           from_json (declared_type decl_type ty) j = Ok v /\
           In (a ++ "." ++ c, v) ans) /\
      (forall j,
         values_from_json decl_type type_str any_of_str from_json
           [(key, j)] available None namespace =
         match Env.resolve available (a ++ "." ++ c) with
         | None => Raise (InputError ("unknown input/output: " ++ key))
         | Some ty =>
             v <- from_json (declared_type decl_type ty) j ;;
             Ok (Env.bind (a ++ "." ++ c) v (Env.empty Value))
         end))) /\
  (List.length
     (Str.split "." (strip_namespace (normalize_namespace namespace) key)) <> 3
   \/ In "" (Str.split "."
               (strip_namespace (normalize_namespace namespace) key)) ->
   lookup_name available (normalize_namespace namespace) key
   = strip_namespace (normalize_namespace namespace) key /\
   (is_comment key = false ->
    (forall values_json required ans,
       In key (Dict.keys values_json) ->
       values_from_json decl_type type_str any_of_str from_json
         values_json available required namespace = Ok ans ->
       exists ty j v,
         Env.resolve available
           (strip_namespace (normalize_namespace namespace) key) = Some ty /\
         Dict.get values_json key = Some j /\
         from_json (declared_type decl_type ty) j = Ok v /\
         In (strip_namespace (normalize_namespace namespace) key, v) ans) /\
    (forall j,
       values_from_json decl_type type_str any_of_str from_json
         [(key, j)] available None namespace =
       match
         Env.resolve available
           (strip_namespace (normalize_namespace namespace) key)
       with
       | None => Raise (InputError ("unknown input/output: " ++ key))
       | Some ty =>
           v <- from_json (declared_type decl_type ty) j ;;
           Ok (Env.bind
                 (strip_namespace (normalize_namespace namespace) key) v
                 (Env.empty Value))
       end))) /\
  ((forall a b c,
      Str.free_of "." a = true -> Str.free_of "." b = true ->
      Str.free_of "." c = true ->
      Str.nonempty a = true -> Str.nonempty b = true ->
      Str.nonempty c = true ->
      strip_namespace (normalize_namespace namespace) key
      <> a ++ "." ++ b ++ "." ++ c) ->
   lookup_name available (normalize_namespace namespace) key
   = strip_namespace (normalize_namespace namespace) key).
Proof.
  set (N := normalize_namespace namespace).
  set (key2 := strip_namespace N key).
  split; [|split].
  - intros a b c E Fa Fb Fc Na Nb Nc Hav.
    assert (Hname : lookup_name available N key = a ++ "." ++ c).
    { unfold lookup_name, simplify_key. fold key2.
      rewrite Hav, E, (split_three a b c Fa Fb Fc). simpl.
      now rewrite Na, Nb, Nc. }
    split; [exact Hname|]. intros Hc.
    exact (looked_up_key available namespace key Hname Hc).
  - intros H.
    assert (Hname : lookup_name available N key = key2).
    { unfold lookup_name. fold key2.
      destruct (simplify_key_cases available key2)
        as [E|(a & b & c & Hs & Na & Nb & Nc & _)]; [exact E|].
      exfalso. rewrite Hs in H. destruct H as [H|[E|[E|[E|[]]]]];
        [now elim H | subst; discriminate ..]. }
    split; [exact Hname|]. intros Hc.
    exact (looked_up_key available namespace key Hname Hc).
  - intros H. unfold lookup_name. fold key2.
    destruct (simplify_key_cases available key2)
      as [E|(a & b & c & Hs & Na & Nb & Nc & _)]; [exact E|].
    exfalso. pose proof (split_parts_free key2) as Hfree.
    rewrite Hs in Hfree.
    inversion Hfree as [|? ? Fa Hfree1]; subst.
    inversion Hfree1 as [|? ? Fb Hfree2]; subst.
    inversion Hfree2 as [|? ? Fc _]; subst.
    apply (H a b c Fa Fb Fc Na Nb Nc).
    rewrite <- (join_split key2), Hs. reflexivity.
Qed.

End Flattening.

(** ** The marshalling theorems on concrete dicts *)

Section MarshalExamples.
Import Sample.



(** C2, on [{"n": 2}] with [z] and [n] required. *)
Lemma values_from_json_required_witness :
  bind_keys decl_ty from_json [("n", JInt 2)]
    [("n", IsType decl TInt)] (normalize_namespace "")
    (Dict.keys [("n", JInt 2)]) (Env.empty value)
  = Ok [("n", VInt 2)] /\
  values_from_json decl_ty type_str JStr from_json [("n", JInt 2)]
    [("n", IsType decl TInt)]
    (Some [("z", IsType decl TString); ("n", IsType decl TInt)]) ""
  = Raise (InputError "missing required inputs/outputs: z").
Proof.
  assert (H : bind_keys decl_ty from_json [("n", JInt 2)]
                [("n", IsType decl TInt)] (normalize_namespace "")
                (Dict.keys [("n", JInt 2)]) (Env.empty value)
              = Ok [("n", VInt 2)]) by reflexivity.
  split; [exact H|].
  destruct (values_from_json_required decl_ty type_str JStr from_json
              [("n", JInt 2)] [("n", IsType decl TInt)]
              [("z", IsType decl TString); ("n", IsType decl TInt)] "" H)
    as (_ & _ & Hmiss & _).
  apply Hmiss. exists "z". split; reflexivity.
Defined.

(** C3, on the key [wf.a.b.c] under the namespace [wf]. *)
Lemma values_from_json_flattening_witness :
  lookup_name [("a.c", IsType decl TInt)] (normalize_namespace "wf")
    "wf.a.b.c" = "a.c" /\
  values_from_json decl_ty type_str JStr from_json
    [("wf.a.b.c", JInt 1)] [("a.c", IsType decl TInt)] None "wf"
  = Ok [("a.c", VInt 1)].
Proof.
  destruct (values_from_json_flattening decl_ty type_str JStr from_json
              [("a.c", IsType decl TInt)] "wf" "wf.a.b.c") as (H & _ & _).
  destruct (H "a" "b" "c") as [Hname Hbind]; try reflexivity.
  split; [exact Hname|].
  destruct (Hbind eq_refl) as [_ Hone]. exact (Hone (JInt 1)).
Defined.

(** C3 as first stated does not hold: a key that starts with '#' is not
    looked up, whatever its parts. *)
Lemma values_from_json_comment_key_not_flattened :
  ~ (forall (values_json : Dict.t json)
       (available : Env.Bindings (declared ty decl))
       (namespace key a b c : string) (ans : Env.Bindings value),
       In key (Dict.keys values_json) ->
       strip_namespace (normalize_namespace namespace) key
       = a ++ "." ++ b ++ "." ++ c ->
       Str.free_of "." a = true -> Str.free_of "." b = true ->
       Str.free_of "." c = true ->
       Str.nonempty a = true -> Str.nonempty b = true ->
       Str.nonempty c = true ->
       Env.has_binding available
         (strip_namespace (normalize_namespace namespace) key) = false ->
       values_from_json decl_ty type_str JStr from_json
         values_json available None namespace = Ok ans ->
       Env.has_binding ans (a ++ "." ++ c) = true).
Proof.
  intros H.
  specialize (H [("#a.b.c", JInt 1)] [("#a.c", IsType decl TInt)] ""
                "#a.b.c" "#a" "b" "c" []).
  discriminate H; try reflexivity. now left.
Qed.

(** C4, on the bindings [s = "t", x = 3]. *)
Lemma values_round_trip_witness :
  (forall name,
     Env.has_binding [("s", VStr "t"); ("x", VInt 3)] name = true ->
     is_comment name = false /\
     Env.has_binding
       [("x", IsType decl TInt); ("s", IsType decl TString)] name = true) /\
  exists ans,
    values_from_json decl_ty type_str JStr from_json
      (values_to_json (json_of_value value_json)
         [("s", VStr "t"); ("x", VInt 3)] "")
      [("x", IsType decl TInt); ("s", IsType decl TString)] None ""
    = Ok ans /\
    (forall name,
       Env.has_binding ans name =
       Env.has_binding [("s", VStr "t"); ("x", VInt 3)] name) /\
    map fst ans = rev (Env.names [("s", VStr "t"); ("x", VInt 3)]).
Proof.
  assert (H : forall name,
            Env.has_binding [("s", VStr "t"); ("x", VInt 3)] name = true ->
            is_comment name = false /\
            Env.has_binding
              [("x", IsType decl TInt); ("s", IsType decl TString)] name
            = true).
  { intros name Hn. apply has_binding_in in Hn.
    destruct Hn as [<-|[<-|[]]]; split; reflexivity. }
  split; [exact H|].
  destruct (values_round_trip decl_ty type_str JStr value_json from_json
              [("s", VStr "t"); ("x", VInt 3)]
              [("x", IsType decl TInt); ("s", IsType decl TString)] H)
    as (Hok & _ & _).
  apply Hok. intros name v t Hv Ht.
  assert (Hin : In name ["s"; "x"]).
  { change ["s"; "x"] with (map fst [("s", VStr "t"); ("x", VInt 3)]).
    apply has_binding_in, has_binding_resolve. now exists v. }
  destruct Hin as [<-|[<-|[]]];
    vm_compute in Hv, Ht; injection Hv as <-; injection Ht as <-;
    eexists; reflexivity.
Defined.

(** C4 as first stated does not hold: [Value.from_json] refuses a value
    whose JSON does not fit the type declared for its name. *)
Lemma values_round_trip_needs_conversion :
  ~ (forall (values_env : Env.Bindings value)
       (available : Env.Bindings (declared ty decl)),
       NoDup (map fst values_env) ->
       (forall name,
          Env.has_binding values_env name = true ->
          is_comment name = false /\
          List.length (Str.split "." name) <> 3 /\
          Env.has_binding available name = true) ->
       exists ans,
         values_from_json decl_ty type_str JStr from_json
           (values_to_json (json_of_value value_json) values_env "")
           available None "" = Ok ans /\
         forall name,
           Env.has_binding ans name = Env.has_binding values_env name).
Proof.
  intros H.
  destruct (H [("x", VInt 3)] [("x", IsType decl TString)])
    as (ans & E & _).
  - repeat constructor. intros [].
  - intros name Hn. apply has_binding_in in Hn.
    destruct Hn as [<-|[]]. repeat split. discriminate.
  - vm_compute in E. discriminate E.
Qed.

(** C8, on a dict with a comment that names nothing. *)
Lemma values_from_json_ignores_comments_witness :
  values_from_json decl_ty type_str JStr from_json
    [("#note", JStr "remember"); ("n", JInt 2)]
    [("n", IsType decl TInt)] None "" =
  values_from_json decl_ty type_str JStr from_json
    [("n", JInt 2)] [("n", IsType decl TInt)] None "".
Proof.
  exact (proj2 (values_from_json_ignores_comments decl_ty type_str JStr
                  from_json [("#note", JStr "remember"); ("n", JInt 2)]
                  [("n", IsType decl TInt)] None "")).
Defined.

(** C9, on the namespace [wf]. *)
Lemma namespace_trailing_dot_witness :
  "wf" <> "" /\ Str.endswith "wf" "." = false /\
  Dict.keys (values_to_json (json_of_value value_json)
               [("s", VStr "t"); ("x", VInt 3)] "wf")
  = ["wf.s"; "wf.x"].
Proof.
  assert (H1 : "wf" <> "") by discriminate.
  assert (H2 : Str.endswith "wf" "." = false) by reflexivity.
  split; [exact H1|]. split; [exact H2|].
  destruct (namespace_trailing_dot decl_ty type_str JStr from_json
              (json_of_value value_json) [] [] None
              [("s", VStr "t"); ("x", VInt 3)] H1 H2) as (_ & _ & Hk & _).
  exact Hk.
Defined.

(** C10, on the key [n] under the namespace [wf]. *)
Lemma values_from_json_verbatim_key_witness :
  is_comment "n" = false /\
  (Str.startswith "n" (normalize_namespace "wf") = false \/ "wf" = "") /\
  Env.resolve [("n", IsType decl TInt)] "n" = Some (IsType decl TInt) /\
  Dict.get [("n", JInt 2)] "n" = Some (JInt 2) /\
  forall ans,
    values_from_json decl_ty type_str JStr from_json
      [("n", JInt 2)] [("n", IsType decl TInt)] None "wf" = Ok ans ->
    Env.has_binding ans "n" = true.
Proof.
  assert (H1 : is_comment "n" = false) by reflexivity.
  assert (H2 : Str.startswith "n" (normalize_namespace "wf") = false
               \/ "wf" = "") by (left; reflexivity).
  assert (H3 : Env.resolve [("n", IsType decl TInt)] "n"
               = Some (IsType decl TInt)) by reflexivity.
  assert (H4 : Dict.get [("n", JInt 2)] "n" = Some (JInt 2)) by reflexivity.
  repeat (split; [assumption|]).
  destruct (values_from_json_verbatim_key decl_ty type_str JStr from_json
              [("n", JInt 2)] [("n", IsType decl TInt)] "n" H1 H2 H3 H4)
    as [_ H].
  exact (H None).
Defined.

(** C10 as first stated does not hold: a key that starts with '#' is
    skipped even when a declaration has that very name. *)
Lemma values_from_json_comment_key_not_bound :
  ~ (forall (values_json : Dict.t json)
       (available : Env.Bindings (declared ty decl))
       (namespace key : string) (ans : Env.Bindings value),
       In key (Dict.keys values_json) ->
       Str.startswith key namespace = false ->
       Str.startswith key (normalize_namespace namespace) = false ->
       Env.has_binding available key = true ->
       values_from_json decl_ty type_str JStr from_json
         values_json available None namespace = Ok ans ->
       Env.has_binding ans key = true).
Proof.
  intros H.
  specialize (H [("#x", JInt 1)] [("#x", IsType decl TInt)] "wf" "#x" []).
  discriminate H; try reflexivity. now left.
Qed.

End MarshalExamples.

(** A dict with a namespaced nested call input, a comment and a plain key,
    read with two of three required names missing; and bindings written back
    under a namespace. *)
Example values_from_json_sample :
  values_from_json Sample.decl_ty Sample.type_str Sample.JStr Sample.from_json
    [("wf.a.b.c", Sample.JInt 1); ("#c", Sample.JStr "note");
     ("n", Sample.JInt 2)]
    [("a.c", IsType Sample.decl Sample.TInt);
     ("n", IsType Sample.decl Sample.TInt)]
    (Some [("z", IsType Sample.decl Sample.TInt);
           ("a.c", IsType Sample.decl Sample.TInt);
           ("q", IsType Sample.decl Sample.TString)])
    "wf"
  = Raise (InputError "missing required inputs/outputs: z, q").
Proof. reflexivity. Qed.

Example values_from_json_sample_ok :
  values_from_json Sample.decl_ty Sample.type_str Sample.JStr Sample.from_json
    [("wf.a.b.c", Sample.JInt 1); ("#c", Sample.JStr "note");
     ("n", Sample.JInt 2)]
    [("a.c", IsType Sample.decl Sample.TInt);
     ("n", IsType Sample.decl Sample.TInt)]
    None "wf"
  = Ok [("n", Sample.VInt 2); ("a.c", Sample.VInt 1)].
Proof. reflexivity. Qed.

Example values_to_json_sample :
  values_to_json (json_of_value Sample.value_json)
    [("x", Sample.VInt 3); ("y", Sample.VStr "s")] "wf"
  = [("wf.x", Sample.JInt 3); ("wf.y", Sample.JStr "s")].
Proof. reflexivity. Qed.

(** ** The further properties on concrete dicts *)

Section MoreExamples.
Import Sample.

(** X2, on a dict with a nested key, a comment and a plain key. *)
Lemma values_from_json_binding_names_witness :
  values_from_json decl_ty type_str JStr from_json
    [("wf.a.b.c", JInt 1); ("#c", JStr "note"); ("n", JInt 2)]
    [("a.c", IsType decl TInt); ("n", IsType decl TInt)] None "wf"
  = Ok [("n", VInt 2); ("a.c", VInt 1)] /\
  map fst [("n", VInt 2); ("a.c", VInt 1)] = ["n"; "a.c"].
Proof.
  assert (H : values_from_json decl_ty type_str JStr from_json
                [("wf.a.b.c", JInt 1); ("#c", JStr "note"); ("n", JInt 2)]
                [("a.c", IsType decl TInt); ("n", IsType decl TInt)] None "wf"
              = Ok [("n", VInt 2); ("a.c", VInt 1)]) by reflexivity.
  split; [exact H|].
  exact (proj1 (values_from_json_binding_names decl_ty type_str JStr
                  from_json
                  [("wf.a.b.c", JInt 1); ("#c", JStr "note"); ("n", JInt 2)]
                  [("a.c", IsType decl TInt); ("n", IsType decl TInt)]
                  None "wf" H)).
Defined.

(** X3, on the binding of [a.c] of the same dict. *)
Lemma values_from_json_sound_witness :
  values_from_json decl_ty type_str JStr from_json
    [("wf.a.b.c", JInt 1); ("#c", JStr "note"); ("n", JInt 2)]
    [("a.c", IsType decl TInt); ("n", IsType decl TInt)] None "wf"
  = Ok [("n", VInt 2); ("a.c", VInt 1)] /\
  exists key ty j,
    In key (Dict.keys
              [("wf.a.b.c", JInt 1); ("#c", JStr "note"); ("n", JInt 2)]) /\
    is_comment key = false /\
    lookup_name [("a.c", IsType decl TInt); ("n", IsType decl TInt)]
      (normalize_namespace "wf") key = "a.c" /\
    Env.resolve [("a.c", IsType decl TInt); ("n", IsType decl TInt)] "a.c"
    = Some ty /\
    Dict.get [("wf.a.b.c", JInt 1); ("#c", JStr "note"); ("n", JInt 2)] key
    = Some j /\
    from_json (declared_type decl_ty ty) j = Ok (VInt 1).
Proof.
  assert (H : values_from_json decl_ty type_str JStr from_json
                [("wf.a.b.c", JInt 1); ("#c", JStr "note"); ("n", JInt 2)]
                [("a.c", IsType decl TInt); ("n", IsType decl TInt)] None "wf"
              = Ok [("n", VInt 2); ("a.c", VInt 1)]) by reflexivity.
  split; [exact H|].
  apply (values_from_json_sound decl_ty type_str JStr from_json
           [("wf.a.b.c", JInt 1); ("#c", JStr "note"); ("n", JInt 2)]
           [("a.c", IsType decl TInt); ("n", IsType decl TInt)] None "wf" H
           "a.c" (VInt 1)).
  right. left. reflexivity.
Defined.

(** X5, on a dict that holds a comment only, with two names required. *)
Lemma values_from_json_only_comments_witness :
  (forall key, In key (Dict.keys [("#only", JStr "x")]) ->
               is_comment key = true) /\
  values_from_json decl_ty type_str JStr from_json
    [("#only", JStr "x")] [("z", IsType decl TInt)]
    (Some [("z", IsType decl TInt); ("q", IsType decl TString)]) ""
  = Raise (InputError "missing required inputs/outputs: z, q").
Proof.
  assert (H : forall key, In key (Dict.keys [("#only", JStr "x")]) ->
                          is_comment key = true).
  { intros key [<-|[]]. reflexivity. }
  split; [exact H|].
  exact (values_from_json_only_comments decl_ty type_str JStr from_json
           [("#only", JStr "x")] [("z", IsType decl TInt)]
           (Some [("z", IsType decl TInt); ("q", IsType decl TString)]) "" H).
Defined.

(** X6, on a dict that gives [n] with the namespace and then without it. *)
Lemma values_from_json_last_key_wins_witness :
  values_from_json decl_ty type_str JStr from_json
    [("wf.n", JInt 1); ("n", JInt 2)] [("n", IsType decl TInt)] None "wf"
  = Ok [("n", VInt 2); ("n", VInt 1)] /\
  exists ty j v,
    Env.resolve [("n", IsType decl TInt)]
      (lookup_name [("n", IsType decl TInt)] (normalize_namespace "wf") "n")
    = Some ty /\
    Dict.get [("wf.n", JInt 1); ("n", JInt 2)] "n" = Some j /\
    from_json (declared_type decl_ty ty) j = Ok v /\
    Env.resolve [("n", VInt 2); ("n", VInt 1)]
      (lookup_name [("n", IsType decl TInt)] (normalize_namespace "wf") "n")
    = Some v.
Proof.
  assert (H : values_from_json decl_ty type_str JStr from_json
                [("wf.n", JInt 1); ("n", JInt 2)] [("n", IsType decl TInt)]
                None "wf"
              = Ok [("n", VInt 2); ("n", VInt 1)]) by reflexivity.
  split; [exact H|].
  apply (values_from_json_last_key_wins decl_ty type_str JStr from_json
           [("wf.n", JInt 1); ("n", JInt 2)] [("n", IsType decl TInt)]
           None "wf" ["wf.n"] "n" [] H); try reflexivity.
  intros k [].
Defined.

(** X7, on a dict whose second value is an integer where a string is
    declared. *)
Lemma values_from_json_conversion_error_witness :
  from_json (declared_type decl_ty (IsType decl TString)) (JInt 3)
  = Raise (InputError "couldn't construct value from input") /\
  values_from_json decl_ty type_str JStr from_json
    [("n", JInt 2); ("s", JInt 3); ("zzz", JInt 1)]
    [("n", IsType decl TInt); ("s", IsType decl TString)] None ""
  = Raise (InputError "couldn't construct value from input").
Proof.
  assert (He : from_json (declared_type decl_ty (IsType decl TString)) (JInt 3)
               = Raise (InputError "couldn't construct value from input"))
    by reflexivity.
  split; [exact He|].
  apply (values_from_json_conversion_error decl_ty type_str JStr from_json
           [("n", JInt 2); ("s", JInt 3); ("zzz", JInt 1)]
           [("n", IsType decl TInt); ("s", IsType decl TString)] None ""
           ["n"] "s" ["zzz"] (ty:=IsType decl TString) (j:=JInt 3)).
  - reflexivity.
  - intros k [<-|[]]. right.
    exists (IsType decl TInt), (JInt 2), (VInt 2). repeat split.
  - reflexivity.
  - reflexivity.
  - reflexivity.
  - exact He.
Defined.

(** X8, on the name [n] under the namespace [wf]. *)
Lemma values_from_json_prefix_optional_witness :
  Env.has_binding [("n", IsType decl TInt)] "n" = true /\
  is_comment (normalize_namespace "wf" ++ "n") = false /\
  values_from_json decl_ty type_str JStr from_json
    [(normalize_namespace "wf" ++ "n", JInt 2)] [("n", IsType decl TInt)]
    None "wf" =
  values_from_json decl_ty type_str JStr from_json
    [("n", JInt 2)] [("n", IsType decl TInt)] None "wf".
Proof.
  split; [reflexivity|]. split; [reflexivity|].
  apply (values_from_json_prefix_optional decl_ty type_str JStr from_json
           [("n", IsType decl TInt)] None (namespace:="wf") "n" (JInt 2));
    try reflexivity.
  left. reflexivity.
Defined.

Lemma sample_names_ok (namespace : string) :
  is_comment (normalize_namespace namespace ++ "s") = false ->
  is_comment (normalize_namespace namespace ++ "x") = false ->
  forall name,
    Env.has_binding [("s", VStr "t"); ("x", VInt 3)] name = true ->
    is_comment (normalize_namespace namespace ++ name) = false /\
    Env.has_binding
      [("x", IsType decl TInt); ("s", IsType decl TString)] name = true.
Proof.
  intros Hs Hx name Hn. apply has_binding_in in Hn.
  destruct Hn as [<-|[<-|[]]]; split; auto.
Qed.

Lemma sample_values_convert :
  forall name v t,
    Env.resolve [("s", VStr "t"); ("x", VInt 3)] name = Some v ->
    Env.resolve [("x", IsType decl TInt); ("s", IsType decl TString)] name
    = Some t ->
    from_json (declared_type decl_ty t) (value_json v) = Ok v.
Proof.
  intros name v t Hv Ht.
  assert (Hin : In name ["s"; "x"]).
  { change ["s"; "x"] with (map fst [("s", VStr "t"); ("x", VInt 3)]).
    apply has_binding_in, has_binding_resolve. now exists v. }
  destruct Hin as [<-|[<-|[]]];
    vm_compute in Hv, Ht; injection Hv as <-; injection Ht as <-;
    reflexivity.
Qed.

(** X9, on the bindings [s = "t", x = 3] under the namespace [wf]. *)
Lemma values_read_back_witness :
  (forall name,
     Env.has_binding [("s", VStr "t"); ("x", VInt 3)] name = true ->
     is_comment (normalize_namespace "wf" ++ name) = false /\
     Env.has_binding
       [("x", IsType decl TInt); ("s", IsType decl TString)] name = true) /\
  exists ans,
    values_from_json decl_ty type_str JStr from_json
      (values_to_json (json_of_value value_json)
         [("s", VStr "t"); ("x", VInt 3)] "wf")
      [("x", IsType decl TInt); ("s", IsType decl TString)] None "wf"
    = Ok ans /\
    map fst ans = rev (Env.names [("s", VStr "t"); ("x", VInt 3)]).
Proof.
  assert (H : forall name,
            Env.has_binding [("s", VStr "t"); ("x", VInt 3)] name = true ->
            is_comment (normalize_namespace "wf" ++ name) = false /\
            Env.has_binding
              [("x", IsType decl TInt); ("s", IsType decl TString)] name
            = true)
    by (apply sample_names_ok; reflexivity).
  split; [exact H|].
  destruct (values_read_back decl_ty type_str JStr value_json from_json
              [("s", VStr "t"); ("x", VInt 3)]
              [("x", IsType decl TInt); ("s", IsType decl TString)] "wf" H)
    as (ans & Hans & Hfst & _).
  - intros name v t Hv Ht. exists v.
    exact (sample_values_convert name Hv Ht).
  - exists ans. split; assumption.
Defined.

(** X10, on the same bindings, with [x] required. *)
Lemma round_trip_of_values_witness :
  exists ans,
    values_from_json decl_ty type_str JStr from_json
      (values_to_json (json_of_value value_json)
         [("s", VStr "t"); ("x", VInt 3)] "wf")
      [("x", IsType decl TInt); ("s", IsType decl TString)]
      (Some [("x", IsType decl TInt)]) "wf"
    = Ok ans /\
    forall name,
      Env.resolve ans name
      = Env.resolve [("s", VStr "t"); ("x", VInt 3)] name.
Proof.
  apply (round_trip_of_values decl_ty type_str JStr value_json from_json
           [("s", VStr "t"); ("x", VInt 3)]
           [("x", IsType decl TInt); ("s", IsType decl TString)]
           (required:=Some [("x", IsType decl TInt)]) "wf").
  - apply sample_names_ok; reflexivity.
  - exact sample_values_convert.
  - intros r name E Hr. injection E as <-.
    apply has_binding_in in Hr. destruct Hr as [<-|[]]. reflexivity.
Defined.

(** X11, on the namespace [#wf]. *)
Lemma values_to_json_comment_namespace_witness :
  Str.startswith "#wf" "#" = true /\
  values_from_json decl_ty type_str JStr from_json
    (values_to_json (json_of_value value_json)
       [("s", VStr "t"); ("x", VInt 3)] "#wf")
    [("x", IsType decl TInt); ("s", IsType decl TString)] None "#wf"
  = Ok (Env.empty value).
Proof.
  assert (H : Str.startswith "#wf" "#" = true) by reflexivity.
  split; [exact H|].
  exact (proj2 (values_to_json_comment_namespace decl_ty type_str JStr
                  from_json (json_of_value value_json)
                  [("s", VStr "t"); ("x", VInt 3)]
                  [("x", IsType decl TInt); ("s", IsType decl TString)]
                  "#wf" "#wf" H)).
Defined.

(** X14, on a dict that lacks a required name. *)
Lemma values_from_json_raises_witness :
  values_from_json decl_ty type_str JStr from_json
    [("n", JInt 2)] [("n", IsType decl TInt)]
    (Some [("z", IsType decl TString); ("n", IsType decl TInt)]) ""
  = Raise (InputError "missing required inputs/outputs: z") /\
  ((exists key,
      In key (Dict.keys [("n", JInt 2)]) /\ is_comment key = false /\
      known [("n", IsType decl TInt)] (normalize_namespace "") key = false /\
      InputError "missing required inputs/outputs: z"
      = InputError ("unknown input/output: " ++ key)) \/
   (exists key t j,
      In key (Dict.keys [("n", JInt 2)]) /\ is_comment key = false /\
      Env.resolve [("n", IsType decl TInt)]
        (lookup_name [("n", IsType decl TInt)] (normalize_namespace "") key)
      = Some t /\
      Dict.get [("n", JInt 2)] key = Some j /\
      from_json (declared_type decl_ty t) j
      = Raise (InputError "missing required inputs/outputs: z")) \/
   (exists r ans,
      Some [("z", IsType decl TString); ("n", IsType decl TInt)] = Some r /\
      bind_keys decl_ty from_json [("n", JInt 2)] [("n", IsType decl TInt)]
        (normalize_namespace "") (Dict.keys [("n", JInt 2)])
        (Env.empty value) = Ok ans /\
      filter (fun n => negb (Env.has_binding ans n)) (Env.names r) <> [] /\
      InputError "missing required inputs/outputs: z"
      = InputError
          ("missing required inputs/outputs: "
           ++ Str.join ", "
                (filter (fun n => negb (Env.has_binding ans n))
                   (Env.names r))))).
Proof.
  assert (H : values_from_json decl_ty type_str JStr from_json
                [("n", JInt 2)] [("n", IsType decl TInt)]
                (Some [("z", IsType decl TString); ("n", IsType decl TInt)]) ""
              = Raise (InputError "missing required inputs/outputs: z"))
    by reflexivity.
  split; [exact H|].
  exact (values_from_json_raises decl_ty type_str JStr from_json
           [("n", JInt 2)] [("n", IsType decl TInt)]
           (Some [("z", IsType decl TString); ("n", IsType decl TInt)]) "" H).
Defined.

(** X15, on a dict that gives [n] twice, written back under [out]. *)
Lemma values_write_back_witness :
  values_from_json decl_ty type_str JStr from_json
    [("wf.n", JInt 1); ("n", JInt 2)] [("n", IsType decl TInt)] None "wf"
  = Ok [("n", VInt 2); ("n", VInt 1)] /\
  values_to_json (json_of_value value_json)
    [("n", VInt 2); ("n", VInt 1)] "out" = [("out.n", JInt 2)] /\
  exists t j v,
    Env.resolve [("n", IsType decl TInt)]
      (lookup_name [("n", IsType decl TInt)] (normalize_namespace "wf") "n")
    = Some t /\
    Dict.get [("wf.n", JInt 1); ("n", JInt 2)] "n" = Some j /\
    from_json (declared_type decl_ty t) j = Ok v /\
    Dict.get (values_to_json (json_of_value value_json)
                [("n", VInt 2); ("n", VInt 1)] "out")
      (normalize_namespace "out"
       ++ lookup_name [("n", IsType decl TInt)] (normalize_namespace "wf") "n")
    = Some (value_json v).
Proof.
  assert (H : values_from_json decl_ty type_str JStr from_json
                [("wf.n", JInt 1); ("n", JInt 2)] [("n", IsType decl TInt)]
                None "wf"
              = Ok [("n", VInt 2); ("n", VInt 1)]) by reflexivity.
  split; [exact H|]. split; [reflexivity|].
  apply (values_write_back decl_ty type_str JStr value_json from_json
           [("wf.n", JInt 1); ("n", JInt 2)] [("n", IsType decl TInt)]
           None "wf" ["wf.n"] "n" [] "out" H); try reflexivity.
  intros k [].
Defined.

(** X16, on the key [wf.x] when [wf.x] is available and [x] is not. *)
Lemma values_from_json_prefix_stripped_witness :
  Env.has_binding [("wf.x", IsType decl TInt)] "wf.x" = true /\
  Env.has_binding [("wf.x", IsType decl TInt)] "x" = false /\
  values_from_json decl_ty type_str JStr from_json
    [("wf.x", JInt 1)] [("wf.x", IsType decl TInt)] None "wf"
  = Raise (InputError "unknown input/output: wf.x") /\
  forall ans,
    values_from_json decl_ty type_str JStr from_json
      [("wf.x", JInt 1)] [("wf.x", IsType decl TInt)] None "wf" <> Ok ans.
Proof.
  split; [reflexivity|]. split; [reflexivity|]. split; [reflexivity|].
  apply (values_from_json_prefix_stripped decl_ty type_str JStr from_json
           [("wf.x", JInt 1)] [("wf.x", IsType decl TInt)] None "wf" "x").
  - reflexivity.
  - reflexivity.
  - vm_compute. discriminate.
  - left. reflexivity.
Defined.

End MoreExamples.

(** ** The workflow runner *)

Module RuntimeFacts.
Import Runtime.

Section Completion.
Variable sched : scheduler.
Hypothesis sched_fair : fair sched.

Lemma indexed_from (A : Type) (pre l : list A) :
  flat_map
    (fun i => match nth_error (pre ++ l)%list i with
              | Some r => [(i, r)]
              | None => []
              end)
    (seq (List.length pre) (List.length l))
  = combine (seq (List.length pre) (List.length l)) l.
Proof.
  revert pre. induction l as [|x l IH]; intros pre; simpl; [reflexivity|].
  rewrite nth_error_app2 by lia. rewrite Nat.sub_diag. simpl. f_equal.
  specialize (IH (pre ++ [x])%list).
  rewrite <- app_assoc, length_app in IH. simpl in IH.
  rewrite Nat.add_1_r in IH. exact IH.
Qed.

Lemma completed_perm (A : Type) (results : list A) :
  Permutation (completed sched results)
    (combine (seq 0 (List.length results)) results).
Proof.
  pose proof (indexed_from [] results) as E. simpl in E. rewrite <- E.
  unfold completed. apply Permutation_flat_map, sched_fair.
Qed.

Lemma in_completed (A : Type) (results : list A) (i : nat) (r : A) :
  In (i, r) (completed sched results) <-> nth_error results i = Some r.
Proof.
  unfold completed. rewrite in_flat_map. split.
  - intros (j & _ & H). destruct (nth_error results j) as [x|] eqn:E;
      [|destruct H].
    destruct H as [H|[]]. injection H as -> ->. exact E.
  - intros H. exists i. split.
    + apply (Permutation_in _ (Permutation_sym (sched_fair _))).
      apply in_seq. split; [lia|]. simpl.
      apply nth_error_Some. congruence.
    + rewrite H. now left.
Qed.

Lemma find_completed (A : Type) (results : list A) (i : nat) (r : A) :
  nth_error results i = Some r ->
  find (fun x => Nat.eqb (fst x) i) (completed sched results) = Some (i, r).
Proof.
  intros H.
  destruct (find (fun x => Nat.eqb (fst x) i) (completed sched results))
    as [[j x]|] eqn:E.
  - apply find_some in E as [Hin Hj]. simpl in Hj.
    apply Nat.eqb_eq in Hj. subst j.
    apply in_completed in Hin. congruence.
  - apply in_completed in H.
    pose proof (find_none _ _ E _ H) as Hn. simpl in Hn.
    now rewrite Nat.eqb_refl in Hn.
Qed.

Lemma result_of_completed (results : list outcome) (i : nat)
    (log : list event) (b : env) :
  nth_error results i = Some (log, Done b) ->
  result_of (completed sched results) i = Some b.
Proof.
  intros H. unfold result_of. now rewrite (find_completed _ _ H).
Qed.

Lemma flat_map_nil (A B : Type) (f : A -> list B) (l : list A) :
  flat_map f l = [] <-> forall x, In x l -> f x = [].
Proof.
  induction l as [|a l IH]; simpl; [tauto|]. split.
  - intros H. apply app_eq_nil in H as [Ha Hl].
    intros x [<-|Hx]; [exact Ha | now apply IH].
  - intros H. rewrite (H a (or_introl eq_refl)). simpl.
    apply IH. intros x Hx. apply H. now right.
Qed.

Lemma failures_none (results : list outcome) :
  (forall r, In r results -> exists log b, r = (log, Done b)) ->
  failures (completed sched results) = [].
Proof.
  intros H. unfold failures. apply flat_map_nil. intros [i r] Hin.
  apply in_completed, nth_error_In in Hin.
  destruct (H r Hin) as (log & b & ->). reflexivity.
Qed.

Lemma failures_none_inv (results : list outcome) :
  (forall log fs, In (log, Failed fs) results -> fs <> []) ->
  failures (completed sched results) = [] ->
  forall r, In r results -> exists log b, r = (log, Done b).
Proof.
  intros Hne H r Hin. unfold failures in H.
  apply In_nth_error in Hin as [i Hi].
  pose proof (proj1 (flat_map_nil _ _) H (i, r)
                (proj2 (in_completed results i r) Hi)) as Hr.
  simpl in Hr. destruct r as [log [b|fs]]; [now exists log, b|].
  simpl in Hr. subst fs. apply nth_error_In in Hi. now elim (Hne log []).
Qed.

(** The names bound by the units that completed. *)
Lemma merged_names (l : list (nat * outcome)) (acc : env) :
  Permutation (map fst (merged l acc))
    (flat_map
       (fun r => match snd (snd r) with
                 | Done b => map fst b
                 | Failed _ => []
                 end) l
     ++ map fst acc)%list.
Proof.
  unfold merged. revert acc.
  induction l as [|[i [log [b|fs]]] l IH]; intros acc; simpl.
  - reflexivity.
  - rewrite IH, map_app. rewrite !app_assoc.
    apply Permutation_app_tail, Permutation_app_comm.
  - apply IH.
Qed.

Lemma names_of_indexed (l : list outcome) (s : nat) :
  flat_map
    (fun r : nat * outcome =>
       match snd (snd r) with
       | Done b => map fst b
       | Failed _ => []
       end) (combine (seq s (List.length l)) l)
  = flat_map
      (fun r : outcome =>
         match snd r with Done b => map fst b | Failed _ => [] end) l.
Proof.
  revert s. induction l as [|r l IH]; intros s; simpl; [reflexivity|].
  now rewrite IH.
Qed.

Lemma rounds_step exec1 k n pending outer produced :
  rounds sched exec1 (S k) (n :: pending) outer produced =
  match filter (is_ready (produced ++ outer)%list) (n :: pending) with
  | [] => ([], Failed [InternalError "no node is ready"])
  | ready =>
      match
        failures
          (completed sched
             (map (fun m => exec1 m (produced ++ outer)%list) ready))
      with
      | [] =>
          ((logs (completed sched
                    (map (fun m => exec1 m (produced ++ outer)%list) ready))
            ++ fst (rounds sched exec1 k
                      (filter
                         (fun m => negb (is_ready (produced ++ outer)%list m))
                         (n :: pending))
                      outer
                      (merged
                         (completed sched
                            (map (fun m => exec1 m (produced ++ outer)%list)
                               ready))
                         produced)))%list,
           snd (rounds sched exec1 k
                  (filter
                     (fun m => negb (is_ready (produced ++ outer)%list m))
                     (n :: pending))
                  outer
                  (merged
                     (completed sched
                        (map (fun m => exec1 m (produced ++ outer)%list)
                           ready))
                     produced)))
      | fs =>
          (logs (completed sched
                   (map (fun m => exec1 m (produced ++ outer)%list) ready)),
           Failed fs)
      end
  end.
Proof. reflexivity. Qed.

(** A scope never fails without a cause. *)
Lemma rounds_failed_nonempty exec1 k pending outer produced log fs :
  rounds sched exec1 k pending outer produced = (log, Failed fs) -> fs <> [].
Proof.
  revert pending produced log.
  induction k as [|k IH]; intros [|n pending] produced log H.
  - discriminate H.
  - injection H as _ <-. discriminate.
  - discriminate H.
  - rewrite rounds_step in H.
    destruct (filter (is_ready (produced ++ outer)%list) (n :: pending))
      as [|r ready]; [injection H as _ <-; discriminate|].
    cbv zeta in H.
    destruct (failures _) as [|f fs'] in H.
    + destruct (rounds sched exec1 k _ _ _) as [log' [b|fs']] eqn:Erest in H;
        simpl in H; [discriminate H|].
      injection H as _ <-. now apply IH in Erest.
    + injection H as _ <-. discriminate.
Qed.

Lemma flat_map_partition (A B : Type) (f : A -> list B) (p : A -> bool)
    (l : list A) :
  Permutation (flat_map f l)
    (flat_map f (filter p l) ++ flat_map f (filter (fun x => negb (p x)) l))%list.
Proof.
  induction l as [|a l IH]; simpl; [reflexivity|].
  destruct (p a); simpl.
  - rewrite <- app_assoc. now apply Permutation_app_head.
  - rewrite IH. rewrite !app_assoc.
    apply Permutation_app_tail, Permutation_app_comm.
Qed.

Section Scope.
Variable exec1 : node -> env -> outcome.
Hypothesis exec1_produces :
  forall n e log b, exec1 n e = (log, Done b) -> map fst b = produces n.
Hypothesis exec1_failed :
  forall n e log fs, exec1 n e = (log, Failed fs) -> fs <> [].

Lemma dispatched_names (visible : env) (ready : list node) :
  failures (completed sched (map (fun m => exec1 m visible) ready)) = [] ->
  flat_map
    (fun r : outcome =>
       match snd r with Done b => map fst b | Failed _ => [] end)
    (map (fun m => exec1 m visible) ready)
  = flat_map produces ready.
Proof.
  intros Hf.
  pose proof (failures_none_inv (map (fun m => exec1 m visible) ready)) as Hd.
  assert (Hall : forall m, In m ready ->
            exists log b, exec1 m visible = (log, Done b)).
  { intros m Hm. apply Hd; [|exact Hf|].
    - intros log fs Hin. apply in_map_iff in Hin as (m' & E & _).
      now apply exec1_failed in E.
    - apply in_map_iff. now exists m. }
  clear Hf Hd. induction ready as [|m ready IH]; simpl; [reflexivity|].
  destruct (Hall m (or_introl eq_refl)) as (log & b & E).
  rewrite E. simpl. rewrite (exec1_produces E). f_equal.
  apply IH. intros m' Hm'. apply Hall. now right.
Qed.

(** What a scope binds, when it completes: the names its nodes produce. *)
Lemma rounds_produces k pending outer produced log b :
  rounds sched exec1 k pending outer produced = (log, Done b) ->
  Permutation (map fst b)
    (flat_map produces pending ++ map fst produced)%list.
Proof.
  revert pending produced log.
  induction k as [|k IH]; intros [|n pending] produced log H.
  - injection H as _ <-. reflexivity.
  - discriminate H.
  - injection H as _ <-. reflexivity.
  - rewrite rounds_step in H.
    set (visible := (produced ++ outer)%list) in *.
    rewrite (flat_map_partition produces (is_ready visible) (n :: pending)).
    destruct (filter (is_ready visible) (n :: pending)) as [|r ready];
      [discriminate H|].
    cbv zeta in H.
    destruct (failures _) as [|f fs'] eqn:Ef in H; [|discriminate H].
    destruct (rounds sched exec1 k _ _ _) as [log' [b'|fs']] eqn:Erest in H;
      simpl in H; [|discriminate H].
    injection H as _ <-.
    rewrite (IH _ _ _ Erest), merged_names.
    rewrite (Permutation_flat_map _ (completed_perm _)), names_of_indexed.
    rewrite (dispatched_names _ _ Ef).
    rewrite !app_assoc. apply Permutation_app_tail, Permutation_app_comm.
Qed.

Lemma run_scope_produces body outer log b :
  run_scope sched exec1 body outer = (log, Done b) ->
  Permutation (map fst b) (flat_map produces body).
Proof.
  intros H. apply rounds_produces in H. simpl in H.
  now rewrite app_nil_r in H.
Qed.

End Scope.

Variable backend : string -> env -> option env.

Lemma exec_failed_nonempty fuel n e log fs :
  exec backend sched fuel n e = (log, Failed fs) -> fs <> [].
Proof.
  destruct fuel as [|fuel]; intros H; [injection H as _ <-; discriminate|].
  destruct n; cbn [exec] in H.
  - split_match H; try discriminate H; injection H as _ <-; discriminate.
  - split_match H; try discriminate H; injection H as _ <-; discriminate.
  - split_match H; try discriminate H; injection H as _ <-; discriminate.
  - split_match H; try discriminate H; injection H as _ <-; discriminate.
  - destruct (eval e guard) as [f|[]]; try (injection H as _ <-; discriminate).
    destruct b.
    + destruct (run_scope sched (exec backend sched fuel) body e)
        as [log' [b|fs']] eqn:E; [discriminate H|].
      injection H as _ <-. unfold run_scope in E.
      now apply rounds_failed_nonempty in E.
    + discriminate H.
Qed.

Lemma exec_produces fuel n e log b :
  exec backend sched fuel n e = (log, Done b) -> map fst b = produces n.
Proof.
  destruct fuel as [|fuel]; intros H; [discriminate H|].
  destruct n; cbn [exec] in H.
  - split_match H; try discriminate H. injection H as _ <-. reflexivity.
  - split_match H; try discriminate H; injection H as _ <-; reflexivity.
  - split_match H; try discriminate H. injection H as _ <-.
    rewrite map_map. reflexivity.
  - split_match H; try discriminate H; injection H as _ <-;
      rewrite map_map; apply map_id.
  - destruct (eval e guard) as [f|[]]; try discriminate H.
    destruct b0.
    + destruct (run_scope sched (exec backend sched fuel) body e)
        as [log' [b'|fs']]; [|discriminate H].
      injection H as _ <-. rewrite map_map. apply map_id.
    + injection H as _ <-. rewrite map_map. apply map_id.
Qed.

(** The scheduler of a scope only runs the executor on the nodes of the
    scope. *)
Lemma rounds_ext exec1 exec1' k pending outer produced :
  (forall m e, In m pending -> exec1 m e = exec1' m e) ->
  rounds sched exec1 k pending outer produced =
  rounds sched exec1' k pending outer produced.
Proof.
  revert pending produced.
  induction k as [|k IH]; intros [|n pending] produced H; try reflexivity.
  rewrite !rounds_step.
  set (visible := (produced ++ outer)%list).
  assert (Hmap :
    map (fun m => exec1 m visible) (filter (is_ready visible) (n :: pending))
    = map (fun m => exec1' m visible)
        (filter (is_ready visible) (n :: pending))).
  { apply map_ext_in. intros m Hm. apply H.
    now apply filter_In in Hm as [Hm _]. }
  destruct (filter (is_ready visible) (n :: pending)) as [|r ready];
    [reflexivity|].
  cbv zeta. rewrite Hmap.
  destruct (failures _) as [|f fs]; [|reflexivity].
  rewrite (IH (filter (fun m => negb (is_ready visible m)) (n :: pending))
             (merged
                (completed sched
                   (map (fun m => exec1' m visible) (r :: ready)))
                produced)).
  - reflexivity.
  - intros m e Hm. apply H. now apply filter_In in Hm as [Hm _].
Qed.

(** As many rounds as the scope has nodes are enough: more rounds give the
    same outcome. *)
Lemma rounds_enough exec1 k k' pending outer produced :
  List.length pending <= k -> List.length pending <= k' ->
  rounds sched exec1 k pending outer produced =
  rounds sched exec1 k' pending outer produced.
Proof.
  revert k' pending produced.
  induction k as [|k IH]; intros k' [|n pending] produced Hk Hk';
    try (now destruct k'); try (simpl in Hk; lia).
  destruct k' as [|k']; [simpl in Hk'; lia|].
  rewrite !rounds_step.
  set (visible := (produced ++ outer)%list).
  pose proof (filter_length (is_ready visible) (n :: pending)) as Hlen.
  destruct (filter (is_ready visible) (n :: pending)) as [|r ready];
    [reflexivity|].
  cbv zeta. destruct (failures _) as [|f fs]; [|reflexivity].
  cbn [List.length] in Hlen, Hk, Hk'.
  rewrite (IH k'); [reflexivity | lia | lia].
Qed.

Lemma depth_positive n : 1 <= depth n.
Proof. destruct n; simpl; lia. Qed.

Lemma depth_in_body m body : In m body -> depth m <= body_depth body.
Proof.
  unfold body_depth. induction body as [|n body IH]; simpl; [tauto|].
  intros [->|H]; [lia|]. specialize (IH H). lia.
Qed.

(** Fuel beyond the nesting of sections does not change what a node does. *)
Lemma exec_enough fuel fuel' n e :
  depth n <= fuel -> depth n <= fuel' ->
  exec backend sched fuel n e = exec backend sched fuel' n e.
Proof.
  revert fuel' n e. induction fuel as [|fuel IH]; intros fuel' n e Hf Hf'.
  - pose proof (depth_positive n). lia.
  - destruct fuel' as [|fuel']; [pose proof (depth_positive n); lia|].
    destruct n; try reflexivity.
    + assert (Hrun : forall outer,
                run_scope sched (exec backend sched fuel) body outer =
                run_scope sched (exec backend sched fuel') body outer).
      { intros outer. apply rounds_ext. intros m e' Hm.
        pose proof (depth_in_body m body Hm) as Hd.
        change (depth (Scatter variable collection body))
          with (S (body_depth body)) in Hf, Hf'.
        apply IH; lia. }
      cbn [exec]. destruct (eval e collection) as [f|[]]; try reflexivity.
      now rewrite (map_ext _ _ (fun item => Hrun (Env.bind variable item e))).
    + assert (Hrun : forall outer,
                run_scope sched (exec backend sched fuel) body outer =
                run_scope sched (exec backend sched fuel') body outer).
      { intros outer. apply rounds_ext. intros m e' Hm.
        pose proof (depth_in_body m body Hm) as Hd.
        change (depth (Conditional guard body))
          with (S (body_depth body)) in Hf, Hf'.
        apply IH; lia. }
      cbn [exec]. destruct (eval e guard) as [f|[]]; try reflexivity.
      now rewrite Hrun.
Qed.

(** The fuel that [run] gives to the executors is enough. *)
Lemma run_scope_enough fuel body outer :
  body_depth body < fuel ->
  run_scope sched (exec backend sched (S (body_depth body))) body outer =
  run_scope sched (exec backend sched fuel) body outer.
Proof.
  intros H. apply rounds_ext. intros m e Hm.
  pose proof (depth_in_body m body Hm). apply exec_enough; lia.
Qed.

(** Every name that the body of a section produces is bound by each run
    of the body that completes. *)
Lemma body_binds fuel body outer log b name :
  run_scope sched (exec backend sched fuel) body outer = (log, Done b) ->
  In name (flat_map produces body) ->
  exists v, Env.resolve b name = Some v.
Proof.
  intros H Hin. apply has_binding_resolve, has_binding_in.
  apply run_scope_produces in H.
  - apply (Permutation_in _ (Permutation_sym H) Hin).
  - intros n e l b'. apply exec_produces.
  - intros n e l fs. apply exec_failed_nonempty.
Qed.

Lemma resolve_tabulate (f : string -> value) (names : list string)
    (name : string) :
  In name names ->
  Env.resolve (map (fun n => (n, f n)) names) name = Some (f name).
Proof.
  induction names as [|n names IH]; simpl; [tauto|].
  intros H. destruct (String.eqb_spec n name) as [->|Hn]; [reflexivity|].
  apply IH. destruct H; [contradiction | assumption].
Qed.

Lemma completed_nil (A : Type) : completed sched (@nil A) = [].
Proof.
  unfold completed. apply flat_map_nil. intros i _. now destruct i.
Qed.

Lemma nth_error_tabulate (A : Type) (f : nat -> A) (count i : nat) :
  i < count -> nth_error (map f (seq 0 count)) i = Some (f i).
Proof.
  intros H. rewrite nth_error_map.
  rewrite (nth_error_nth' (seq 0 count) 0) by now rewrite length_seq.
  now rewrite seq_nth.
Qed.

(** C6: a Scatter whose collection evaluates to [items] completes when
    every iteration of its body does, and only then; each name its body
    produces is then bound to an array with as many elements as [items], the
    element of index [i] being the value that the iteration on the item of
    index [i] bound to the name, whatever the order in which the iterations
    completed; over an empty collection the arrays are empty and no node of
    the body is executed. *)
Theorem scatter_gathers_by_index fuel variable collection body e items :
  eval e collection = inr (VArray items) ->
  let iteration := fun item =>
    run_scope sched (exec backend sched fuel) body
      (Env.bind variable item e) in
  let section :=
    exec backend sched (S fuel) (Scatter variable collection body) e in
  ((forall item, In item items ->
      exists log b, iteration item = (log, Done b)) ->
   exists log out,
     section = (log, Done out) /\
     forall name, In name (flat_map produces body) ->
       exists vs,
         Env.resolve out name = Some (VArray vs) /\
         List.length vs = List.length items /\
         forall i item, nth_error items i = Some item ->
           exists log_i b v,
             iteration item = (log_i, Done b) /\
             Env.resolve b name = Some v /\
             nth_error vs i = Some v) /\
  (forall log out,
     section = (log, Done out) ->
     forall item, In item items ->
       exists log_i b, iteration item = (log_i, Done b)) /\
  (items = [] ->
   section =
   ([], Done (map (fun name => (name, VArray [])) (flat_map produces body)))).
Proof.
  intros Heval iteration section.
  set (done := completed sched (map iteration items)).
  assert (Hsec : section =
            match failures done with
            | [] =>
                (logs done,
                 Done (map (fun name =>
                              (name,
                               gather_array (List.length items) done name))
                         (flat_map produces body)))
            | fs => (logs done, Failed fs)
            end).
  { unfold section. cbn [exec]. now rewrite Heval. }
  unfold done in *. clear done.
  split; [|split].
  - intros Hall.
    assert (Hf : failures (completed sched (map iteration items)) = []).
    { apply failures_none. intros r Hr.
      apply in_map_iff in Hr as (item & <- & Hin). now apply Hall. }
    rewrite Hf in Hsec. do 2 eexists. split; [exact Hsec|].
    intros name Hname.
    rewrite (resolve_tabulate
               (gather_array (List.length items)
                  (completed sched (map iteration items))) _ _ Hname).
    unfold gather_array. eexists. split; [reflexivity|].
    split; [now rewrite length_map, length_seq|].
    intros i item Hi.
    destruct (Hall item (nth_error_In _ _ Hi)) as (log_i & b & Hit).
    destruct (body_binds _ _ _ name Hit Hname) as [v Hv].
    exists log_i, b, v. split; [exact Hit|]. split; [exact Hv|].
    rewrite nth_error_tabulate
      by (apply nth_error_Some; congruence).
    rewrite (result_of_completed (map iteration items) i (log:=log_i) (b:=b)).
    + now rewrite Hv.
    + rewrite nth_error_map, Hi. simpl. now rewrite Hit.
  - intros log out H item Hin. rewrite Hsec in H.
    destruct (failures (completed sched (map iteration items)))
      as [|f fs] eqn:Hf; [|discriminate H].
    apply (failures_none_inv (map iteration items)); [|exact Hf|].
    + intros l fs Hr. apply in_map_iff in Hr as (it & E & _).
      unfold iteration, run_scope in E.
      now apply rounds_failed_nonempty in E.
    + apply in_map_iff. now exists item.
  - intros ->. rewrite Hsec. simpl. rewrite completed_nil. reflexivity.
Qed.







End Completion.



Example wf1_with_call_fails :
  run no_backend in_order wf1_with_call (div_inputs 7 0) =
  ([Asserted "denominator != 0"; Called "c"],
   inl (RunFailed (RuntimeError (AssertionFailed "denominator != 0"))
          [CallFailed "c"])).
Proof. reflexivity. Qed.

Lemma last_first_fair : fair last_first.
Proof. intros n. simpl. apply Permutation_sym, Permutation_rev. Qed.

(** C6, on [scatter (x in [1, 2, 3]) { Int y = x * 2 }] with the iterations
    completing last to first. *)
Lemma scatter_gathers_by_index_witness :
  fair last_first /\
  eval [] (Lit (VArray [VInt 1; VInt 2; VInt 3]))
  = inr (VArray [VInt 1; VInt 2; VInt 3]) /\
  exists log out,
    exec no_backend last_first 2 doubling [] = (log, Done out) /\
    exists vs,
      Env.resolve out "y" = Some (VArray vs) /\ List.length vs = 3.
Proof.
  assert (H : eval [] (Lit (VArray [VInt 1; VInt 2; VInt 3]))
              = inr (VArray [VInt 1; VInt 2; VInt 3])) by reflexivity.
  split; [exact last_first_fair|]. split; [exact H|].
  destruct (scatter_gathers_by_index last_first_fair no_backend 1 "x"
              (Lit (VArray [VInt 1; VInt 2; VInt 3]))
              [Decl "y" (Mul (Ident "x") (Lit (VInt 2)))] [] H)
    as (Hall & _ & _).
  destruct Hall as (log & out & Hsec & Hnames).
  - intros item Hin. vm_compute.
    destruct Hin as [<-|[<-|[<-|[]]]]; vm_compute; eauto.
  - exists log, out. split; [exact Hsec|].
    destruct (Hnames "y") as (vs & Hy & Hlen & _); [now left|].
    exists vs. split; assumption.
Defined.

(** The arrays of [doubling] are in the order of the collection although the
    iterations completed in the reverse order. *)
Example doubling_last_first :
  exec no_backend last_first 2 doubling [] =
  ([Evaluated "y"; Evaluated "y"; Evaluated "y"],
   Done [("y", VArray [VInt 2; VInt 4; VInt 6])]).
Proof. reflexivity. Qed.

End RuntimeFacts.
